(** * jetstream.py: wind-speed maps of the atmospheric jet stream

    A shallow embedding of [src/jetstream.py]: the level lookup, the
    sensitivity default and the wind-speed grid of
    [ERAJetStreamData.calc_windspeed], the title of
    [JetStreamData.create_map], and the driver under
    [if __name__ == '__main__'] as a function over the state of a file
    system and an output trace.

    Grid cells and the sensitivity are IEEE binary64 numbers (numpy's
    float64, Python's float): Rocq's primitive floats, whose operations the
    library specifies through [SpecFloat].  Pressure levels and encoded
    times are integers.  Coordinates in degrees are rationals.

    What the program calls in other libraries is outside the sources: the
    grid shift of the mapping library is modelled from the spec; the
    reading of the area, the opening of the data file, the decoding of
    time values and the operating system (the tests on a path, the making
    of a directory and the writing of a figure, the last two of which can
    raise) are parameters of the driver; what is printed, rendered, made
    and saved is recorded in the trace. *)

From Stdlib Require Import ZArith QArith Lqa Floats DecimalString DecimalPos.
From stdpp Require Import base option list sorting strings gmap.

Local Open Scope Z_scope.

(** ** Exceptions and results *)

Inductive exception :=
  | ValueError (msg : string)
  | IndexError (msg : string)
  | OSError (msg : string).

Inductive result (A : Type) :=
  | Ok (a : A)
  | Raise (e : exception).
Arguments Ok {A} a.
Arguments Raise {A} e.

#[global] Instance result_ret : MRet result := fun A a => Ok a.

#[global] Instance result_bind : MBind result := fun A B k r =>
  match r with
  | Ok a => k a
  | Raise e => Raise e
  end.

(** ** String formatting *)

(** ["%d" % n] for a Python [int]. *)
Definition fmt_d (n : Z) : string := NilZero.string_of_int (Z.to_int n).

(** ** The level lookup (lines 104-109)

    [for levindex, millibars in enumerate(self.data['level'])] with a
    [break] at the first equal entry and a [raise] in the loop's [else]. *)

Fixpoint enumerate_levels (levindex : nat) (levels : list Z) (level : Z)
  : option nat :=
  match levels with
  | [] => None
  | millibars :: rest =>
      if millibars =? level then Some levindex
      else enumerate_levels (S levindex) rest level
  end.

Definition no_level_message (level : Z) : string :=
  "No " +:+ fmt_d level +:+ " hPa level (maybe check with -L?)".

Definition find_level (levels : list Z) (level : Z) : result nat :=
  match enumerate_levels 0 levels level with
  | Some levindex => Ok levindex
  | None => Raise (ValueError (no_level_message level))
  end.

(** ** Grids of binary64 cells *)

Abbreviation grid := (list (list float)).

Definition grid_map (f : float -> float) (g : grid) : grid := map (map f) g.

(** [x ** 2] on a float64 array is the elementwise product [x * x]. *)
Definition square (x : float) : float := (x * x)%float.

Definition same_shape (a b : grid) : bool :=
  bool_decide (length <$> a = length <$> b).

(** Elementwise [a + b].  The fields [u] and [v] share the dataset's
    dimensions; operands of different shapes are numpy's shape error
    (broadcasting of axes of length one is left out). *)
Definition grid_add (a b : grid) : result grid :=
  if same_shape a b then Ok (zip_with (zip_with PrimFloat.add) a b)
  else Raise (ValueError "operands could not be broadcast together").

(** ** The grid shift *)

(** Modelled from the spec: [basemap.shiftgrid] belongs to the mapping
    library and is not among the sources.  The spec gives the cut and the
    swap: the axis is cut at the first longitude that reaches [lon0]; the
    part from the cut on comes first and the part before it second, the
    columns of every row moving with their longitudes.  With [start=False]
    the part from the cut on is expressed one period lower; with
    [start=True] the part before the cut is expressed one period higher. *)
Fixpoint cut_index (lon0 : Q) (lonsin : list Q) : nat :=
  match lonsin with
  | [] => 0%nat
  | x :: rest => if Qle_bool lon0 x then 0%nat else S (cut_index lon0 rest)
  end.

Definition rotate {A : Type} (i0 : nat) (row : list A) : list A :=
  drop i0 row ++ take i0 row.

Definition cyclic : Q := 360.

Definition shiftgrid {A : Type} (lon0 : Q) (datain : list (list A))
    (lonsin : list Q) (start : bool) : list (list A) * list Q :=
  let i0 := cut_index lon0 lonsin in
  let lonsout :=
    if start
    then drop i0 lonsin ++ map (fun x => x + cyclic)%Q (take i0 lonsin)
    else map (fun x => x - cyclic)%Q (drop i0 lonsin) ++ take i0 lonsin in
  (map (rotate i0) datain, lonsout).

(** ** The dataset and the data object *)

(** The netCDF variables the program reads: the four axes, the attributes
    of the time axis, and the fields [u] and [v] indexed by time, level,
    latitude and longitude. *)
Record Dataset := {
  ds_level : list Z;
  ds_longitude : list Q;
  ds_latitude : list Q;
  ds_time : list Z;
  ds_time_units : string;
  ds_time_calendar : string;
  ds_u : list (list grid);
  ds_v : list (list grid)
}.

(** An [ERAJetStreamData] object: the dataset and the three attributes
    that [calc_windspeed] assigns (absent until its first call). *)
Record ERAJetStreamData := {
  data : Dataset;
  lon : option (list Q);
  lat : option (list Q);
  windspeed : option grid
}.

Definition ERAJetStreamData_init (d : Dataset) : ERAJetStreamData :=
  {| data := d; lon := None; lat := None; windspeed := None |}.

Definition list_levels (self : ERAJetStreamData) : list Z :=
  ds_level (data self).

(** [variables[name][idx][levindex][:]] *)
Definition field_at (field : list (list grid)) (idx levindex : nat)
  : result grid :=
  match field !! idx with
  | None => Raise (IndexError "index out of bounds")
  | Some levels =>
      match levels !! levindex with
      | None => Raise (IndexError "index out of bounds")
      | Some g => Ok g
      end
  end.

(** ** The sensitivity factor (lines 114-119) *)

Definition default_sensitivity (level : Z) : float :=
  if level =? 250 then 3.5%float else 7.5%float.

(** [if not sensitivity: ...]: a float is false exactly when it equals
    zero. *)
Definition set_sensitivity (level : Z) (sensitivity : float) : float :=
  if (sensitivity =? 0)%float then default_sensitivity level
  else sensitivity.

(** ** calc_windspeed (lines 99-131) *)

(** The magnitude grid of lines 121-123. *)
Definition magnitude (sensitivity : float) (u v : grid) : result grid :=
  sq ← grid_add (grid_map square u) (grid_map square v);
  mret (grid_map (PrimFloat.mul sensitivity) (grid_map PrimFloat.sqrt sq)).

(** Lines 111-129, once the loop has left the index of the level in
    [levindex]. *)
Definition calc_windspeed_at (d : Dataset) (idx : nat) (level : Z)
    (sensitivity : float) (levindex : nat)
  : result (list Q * list Q * grid) :=
  let lon := ds_longitude d in
  let lat := ds_latitude d in
  let sensitivity := set_sensitivity level sensitivity in
  u ← field_at (ds_u d) idx levindex;
  v ← field_at (ds_v d) idx levindex;
  windspeed ← magnitude sensitivity u v;
  let '(windspeed, lon) := shiftgrid 180 windspeed lon false in
  mret (lon, lat, windspeed).

(** The local values [lon], [lat] and [windspeed] at line 131.  The
    parameter [sensitivity] is [None] when the caller leaves it out, which
    the signature turns into [0]. *)
Definition calc_windspeed_values (d : Dataset) (idx : nat) (level : Z)
    (sensitivity : option float) : result (list Q * list Q * grid) :=
  levindex ← find_level (ds_level d) level;
  calc_windspeed_at d idx level (default 0%float sensitivity) levindex.

(** The method: it returns nothing and leaves its results in the
    attributes of [self]; an exception leaves [self] as it was. *)
Definition calc_windspeed (self : ERAJetStreamData) (idx : nat) (level : Z)
    (sensitivity : option float) : result unit * ERAJetStreamData :=
  match calc_windspeed_values (data self) idx level sensitivity with
  | Ok (lon, lat, windspeed) =>
      (Ok tt, {| data := data self; lon := Some lon; lat := Some lat;
                 windspeed := Some windspeed |})
  | Raise e => (Raise e, self)
  end.

(** ** The map title (lines 81-89) *)

Definition bounds : Type := float * float * float * float.

(** What [JetStreamMap.render] is handed: the bounding box, the three
    attributes of the data object and the title. *)
Record JetStreamMap := {
  map_bounds : bounds;
  map_lon : option (list Q);
  map_lat : option (list Q);
  map_windspeed : option grid;
  map_title : string
}.

Definition create_map (self : ERAJetStreamData) (level : Z) (timestr : string)
    (area : bounds) : JetStreamMap :=
  let title :=
    if level =? 250 then "Jet Stream " +:+ timestr
    else "Winds " +:+ fmt_d level +:+ " mb " +:+ timestr in
  {| map_bounds := area; map_lon := lon self; map_lat := lat self;
     map_windspeed := windspeed self; map_title := title |}.

(** ** Dates *)

Record datetime := { year : Z; month : Z; day : Z }.

Fixpoint zeros (n : nat) : string :=
  match n with
  | O => ""
  | S n' => "0" +:+ zeros n'
  end.

Definition pad0 (width : nat) (s : string) : string :=
  zeros (width - String.length s) +:+ s.

(** [thedate.strftime("%Y-%m-%d")], as the C library of Linux formats it:
    the year in decimal as it is (three digits for the year 999), the month
    and the day on two digits. *)
Definition strftime_Ymd (d : datetime) : string :=
  fmt_d (year d) +:+ "-" +:+ pad0 2 (fmt_d (month d))
  +:+ "-" +:+ pad0 2 (fmt_d (day d)).

(** ** The world of the driver: a file system and what was output *)

(** The file system belongs to the operating system.  The driver asks it
    whether a path exists ([os.path.exists]) and whether it is a directory
    ([os.path.isdir]), has a directory made ([os.mkdir]) and a figure
    written ([fig.savefig]); the last two can raise, and nothing in the
    driver catches what they raise.  Which path texts name one file, when
    these calls fail and what they leave behind is the system's business:
    the state [FS] and the four operations are an interface. *)
Record OS (FS : Type) := {
  path_exists : FS -> string -> bool;
  path_isdir : FS -> string -> bool;
  mkdir : string -> FS -> result FS;
  savefig : JetStreamMap -> string -> Z -> FS -> result FS
}.
Arguments path_exists {FS} _ _ _.
Arguments path_isdir {FS} _ _ _.
Arguments mkdir {FS} _ _ _.
Arguments savefig {FS} _ _ _ _ _.

Inductive event :=
  | EvPrint (line : string)
  | EvMkdir (path : string)
  | EvRender (m : JetStreamMap)
  | EvSavefig (figname : string) (dpi : Z)
  | EvClose.

Record world (FS : Type) := {
  fs : FS;
  trace : list event
}.
Arguments fs {FS} _.
Arguments trace {FS} _.
Arguments Build_world {FS} _ _.

Definition emit {FS : Type} (e : event) (w : world FS) : world FS :=
  {| fs := fs w; trace := trace w ++ [e] |}.

(** How a run ends: the script runs off its end, calls [sys.exit], or
    dies of an exception nobody catches. *)
Inductive outcome :=
  | Completed
  | SysExit (code : Z)
  | Uncaught (e : exception).

Definition exit_code (o : outcome) : Z :=
  match o with
  | Completed => 0
  | SysExit code => code
  | Uncaught _ => 1
  end.

(** ** The driver (lines 166-200) *)

Record Namespace := {
  threshold : float;
  area : string;
  level : Z;
  outdir : string;
  dpi : Z;
  listlevels : bool;
  datafile : string
}.

Definition figname_of (outdir timestr : string) (level : Z) : string :=
  outdir +:+ "/" +:+ timestr +:+ "-" +:+ fmt_d level +:+ ".png".

Definition conflict_message (outdir : string) : string :=
  "Can't create dir " +:+ outdir +:+ ": there's a file by that name".

Section Driver.
(** The collaborators of the driver: the operating system, the reading of
    the four numbers of [--area], the opening of the data file, and the
    decoding of a time value under the units and the calendar of the time
    axis. *)
Context {FS : Type}.
Variable os : OS FS.
Variable parse_area : string -> result bounds.
Variable open_dataset : string -> result Dataset.
Variable num2date : Z -> string -> string -> datetime.

(** One pass of the loop of lines 189-200.  The world that comes back is
    the one the pass has reached, also when it raises. *)
Definition timestep (args : Namespace) (box : bounds)
    (timeunits cal : string) (i : nat) (t : Z)
    (JSdata : ERAJetStreamData) (w : world FS)
  : result ERAJetStreamData * world FS :=
  let thedate := num2date t timeunits cal in
  let timestr := strftime_Ymd thedate in
  match calc_windspeed JSdata i (level args) None with
  | (Raise e, _) => (Raise e, w)
  | (Ok _, JSdata) =>
      let mymap := create_map JSdata (level args) timestr box in
      let w := emit (EvRender mymap) w in
      let figname := figname_of (outdir args) timestr (level args) in
      match savefig os mymap figname (dpi args) (fs w) with
      | Raise e => (Raise e, w)
      | Ok fs' =>
          let w := {| fs := fs';
                      trace := trace w ++ [EvSavefig figname (dpi args)] |} in
          let w := emit (EvPrint figname) w in
          let w := emit EvClose w in
          (Ok JSdata, w)
      end
  end.

Fixpoint timestep_loop (args : Namespace) (box : bounds)
    (timeunits cal : string) (i : nat) (times : list Z)
    (JSdata : ERAJetStreamData) (w : world FS) : outcome * world FS :=
  match times with
  | [] => (Completed, w)
  | t :: rest =>
      match timestep args box timeunits cal i t JSdata w with
      | (Raise e, w) => (Uncaught e, w)
      | (Ok JSdata, w) =>
          timestep_loop args box timeunits cal (S i) rest JSdata w
      end
  end.

Definition print_levels (levels : list Z) (w : world FS) : world FS :=
  foldl (fun w level => emit (EvPrint ("   " +:+ " " +:+ fmt_d level)) w)
        w levels.

Definition main (args : Namespace) (w : world FS) : outcome * world FS :=
  match parse_area (area args) with
  | Raise e => (Uncaught e, w)
  | Ok box =>
  match open_dataset (datafile args) with
  | Raise e => (Uncaught e, w)
  | Ok d =>
      let JSdata := ERAJetStreamData_init d in
      if listlevels args then
        let w := emit (EvPrint ("Levels available in dataset "
                                +:+ datafile args +:+ ":")) w in
        let w := print_levels (list_levels JSdata) w in
        (SysExit 0, w)
      else if negb (path_exists os (fs w) (outdir args)) then
        match mkdir os (outdir args) (fs w) with
        | Raise e => (Uncaught e, w)
        | Ok fs' =>
            let w := {| fs := fs';
                        trace := trace w ++ [EvMkdir (outdir args)] |} in
            timestep_loop args box (ds_time_units d) (ds_time_calendar d)
                          0 (ds_time d) JSdata w
        end
      else if negb (path_isdir os (fs w) (outdir args)) then
        let w := emit (EvPrint (conflict_message (outdir args))) w in
        (SysExit 1, w)
      else
        timestep_loop args box (ds_time_units d) (ds_time_calendar d)
                      0 (ds_time d) JSdata w
  end
  end.
End Driver.

(** ** Vocabulary of the properties *)

Definition Qlt_bool (x y : Q) : bool := negb (Qle_bool y x).

(** A strictly increasing axis. *)
Fixpoint increasing (l : list Q) : bool :=
  match l with
  | x :: rest =>
      match rest with
      | y :: _ => Qlt_bool x y && increasing rest
      | [] => true
      end
  | [] => true
  end.

(** Every value lies in the half-open interval from [lo] to [hi]. *)
Definition within (lo hi : Q) (l : list Q) : bool :=
  forallb (fun x => Qle_bool lo x && Qlt_bool x hi) l.

(** Every row has [n] columns. *)
Definition rectangular {A : Type} (n : nat) (g : list (list A)) : bool :=
  forallb (fun row => Nat.eqb (length row) n) g.

(** A longitude of the source axis on the re-centred axis. *)
Definition wrap (x : Q) : Q := if Qle_bool 180 x then (x - 360)%Q else x.

(** [s] occurs in [t]. *)
Definition occurs_in (s t : string) : Prop :=
  exists pre post, t = pre +:+ s +:+ post.

(** The cell of a grid at a row and a column. *)
Definition cell (g : grid) (i j : nat) : option float :=
  row ← g !! i; row !! j.

(** The output directory is in place in [w0]: it was a directory in [w], or
    nothing was at the path and [os.mkdir] has made it. *)
Definition prepared {FS : Type} (os : OS FS) (outdir : string)
    (w w0 : world FS) : Prop :=
  (path_exists os (fs w) outdir = true /\
   path_isdir os (fs w) outdir = true /\ w0 = w) \/
  (path_exists os (fs w) outdir = false /\
   exists fs', mkdir os outdir (fs w) = Ok fs' /\
               w0 = {| fs := fs'; trace := trace w ++ [EvMkdir outdir] |}).

(** The decimal digit of a number from 0 to 9, and numbers written on two
    and on four digits. *)
Definition digit (n : Z) : Ascii.ascii :=
  Ascii.ascii_of_nat (48 + Z.to_nat n).

Definition two_digits (n : Z) : string :=
  String (digit (n / 10)) (String (digit (n mod 10)) "").

Definition four_digits (n : Z) : string :=
  String (digit (n / 1000))
    (String (digit (n / 100 mod 10))
       (String (digit (n / 10 mod 10)) (String (digit (n mod 10)) ""))).

(** The names under which a trace saves images, in order. *)
Definition saved_names (tr : list event) : list string :=
  omap (fun e => match e with
                 | EvSavefig figname _ => Some figname
                 | _ => None
                 end) tr.

(** One file system comes from another by calls of [os.mkdir] on the output
    path and of [savefig] on image names of the requested level, and by
    nothing else. *)
Inductive reaches {FS : Type} (os : OS FS) (args : Namespace)
  : FS -> FS -> Prop :=
  | reaches_refl s : reaches os args s s
  | reaches_mkdir s s' s'' :
      mkdir os (outdir args) s = Ok s' ->
      reaches os args s' s'' -> reaches os args s s''
  | reaches_savefig m timestr s s' s'' :
      savefig os m (outdir args +:+ "/" +:+ timestr +:+ "-"
                    +:+ fmt_d (level args) +:+ ".png") (dpi args) s = Ok s' ->
      reaches os args s' s'' -> reaches os args s s''.

(** The sign of a binary64 value is [s], or the value is NaN. *)
Definition signed (s : bool) (x : spec_float) : Prop :=
  match x with
  | S754_nan => True
  | S754_zero s' | S754_infinity s' | S754_finite s' _ _ => s' = s
  end.

Definition SFis_nan (x : spec_float) : bool :=
  match x with
  | S754_nan => true
  | _ => false
  end.

(** The value of one cell at lines 121-123. *)
Definition windspeed_cell (sensitivity u v : float) : float :=
  (sensitivity * sqrt (square u + square v))%float.

(** The shape of the dataset: the fields [u] and [v] have one entry per
    time, each with one grid per level, each grid with one row per latitude
    and one column per longitude. *)
Definition grid_ok (d : Dataset) (g : grid) : bool :=
  Nat.eqb (length g) (length (ds_latitude d))
  && rectangular (length (ds_longitude d)) g.

Definition field_ok (d : Dataset) (field : list (list grid)) : bool :=
  Nat.eqb (length field) (length (ds_time d))
  && forallb (fun levels => Nat.eqb (length levels) (length (ds_level d))
                            && forallb (grid_ok d) levels) field.

Definition well_shaped (d : Dataset) : bool :=
  field_ok d (ds_u d) && field_ok d (ds_v d).

(** ** Sample inputs *)

Definition repeated_level_dataset : Dataset := {|
  ds_level := [500; 250; 1000; 250];
  ds_longitude := [0; 180]%Q;
  ds_latitude := [0]%Q;
  ds_time := [0];
  ds_time_units := "hours since 1900-01-01 00:00:0.0";
  ds_time_calendar := "gregorian";
  ds_u := [[ [[1;1]]; [[3;3]]; [[1;1]]; [[6;6]] ]]%float;
  ds_v := [[ [[1;1]]; [[4;4]]; [[1;1]]; [[8;8]] ]]%float
|}.

Definition example_dataset : Dataset := {|
  ds_level := [250; 500; 1000];
  ds_longitude := [0; 90; 180; 270]%Q;
  ds_latitude := [45; 0]%Q;
  ds_time := [1000000];
  ds_time_units := "hours since 1900-01-01 00:00:0.0";
  ds_time_calendar := "gregorian";
  ds_u := [[ [[3;0;6;0];[0;0;0;5]];
             [[1;1;1;1];[2;2;2;2]];
             [[0;1;0;1];[1;0;1;0]] ]]%float;
  ds_v := [[ [[4;0;8;0];[0;0;0;12]];
             [[1;0;1;0];[0;2;0;2]];
             [[0;0;0;0];[1;1;1;1]] ]]%float
|}.

Definition example_args : Namespace := {|
  threshold := 0%float;
  area := "-180,180,-70,74";
  level := 250;
  outdir := "outdir";
  dpi := 100;
  listlevels := false;
  datafile := "file.nc"
|}.

Definition example_box : bounds := ((-180)%float, 180%float, (-70)%float, 74%float).

Definition example_parse_area (s : string) : result bounds := Ok example_box.

Definition example_open_dataset (s : string) : result Dataset :=
  Ok example_dataset.

Definition example_num2date (t : Z) (units calendar : string) : datetime :=
  {| year := 2014; month := 2; day := 9 |}.

(** A sample operating system, on which the driver can be run.  A file is
    named by the components of its path from the working directory, so
    that ["outdir"], ["./outdir"] and ["outdir/"] name one file (the sample
    knows no [".."] and no links); a directory can be made, and a figure
    written, only inside a directory that is there, and a directory cannot
    be made where something already is. *)
Inductive node := File | Dir.

(** The components of a path text, cut at the slashes (character 47). *)
Fixpoint components (path : string) : list string :=
  match path with
  | EmptyString => [""]
  | String ch rest =>
      if Ascii.eqb ch (Ascii.ascii_of_nat 47) then "" :: components rest
      else match components rest with
           | c :: cs => String ch c :: cs
           | [] => [String ch ""]
           end
  end.

(** Empty components and ["."] lead nowhere further. *)
Definition normpath (path : string) : list string :=
  List.filter (fun c => negb (String.eqb c "" || String.eqb c "."))
              (components path).

Abbreviation sample_fs := (gmap (list string) node).

Definition sample_lookup (s : sample_fs) (k : list string) : option node :=
  match k with
  | [] => Some Dir
  | _ => s !! k
  end.

Definition sample_exists (s : sample_fs) (path : string) : bool :=
  match sample_lookup s (normpath path) with
  | Some _ => true
  | None => false
  end.

Definition sample_isdir (s : sample_fs) (path : string) : bool :=
  match sample_lookup s (normpath path) with
  | Some Dir => true
  | _ => false
  end.

Definition sample_mkdir (path : string) (s : sample_fs) : result sample_fs :=
  let k := normpath path in
  match sample_lookup s k with
  | Some _ => Raise (OSError "File exists")
  | None =>
      match sample_lookup s (removelast k) with
      | Some Dir => Ok (<[k := Dir]> s)
      | Some File => Raise (OSError "Not a directory")
      | None => Raise (OSError "No such file or directory")
      end
  end.

Definition sample_savefig (m : JetStreamMap) (figname : string) (dpi : Z)
    (s : sample_fs) : result sample_fs :=
  let k := normpath figname in
  match sample_lookup s k with
  | Some Dir => Raise (OSError "Is a directory")
  | _ =>
      match sample_lookup s (removelast k) with
      | Some Dir => Ok (<[k := File]> s)
      | Some File => Raise (OSError "Not a directory")
      | None => Raise (OSError "No such file or directory")
      end
  end.

Definition sample_os : OS sample_fs := {|
  path_exists := sample_exists;
  path_isdir := sample_isdir;
  mkdir := sample_mkdir;
  savefig := sample_savefig
|}.

(** A world where nothing is at the output path, one where it is a
    regular file, and one where it is a directory. *)
Definition empty_world : world sample_fs := {| fs := ∅; trace := [] |}.

Definition world_with_file : world sample_fs :=
  {| fs := {[ ["outdir"] := File ]}; trace := [] |}.

Definition world_with_dir : world sample_fs :=
  {| fs := {[ ["outdir"] := Dir ]}; trace := [] |}.

Definition example_loop : outcome * world sample_fs :=
  timestep_loop sample_os example_num2date example_args example_box
    (ds_time_units example_dataset) (ds_time_calendar example_dataset)
    0 (ds_time example_dataset) (ERAJetStreamData_init example_dataset)
    world_with_dir.


Definition nan_dataset : Dataset := {|
  ds_level := [250];
  ds_longitude := [0; 180]%Q;
  ds_latitude := [0]%Q;
  ds_time := [0];
  ds_time_units := "hours since 1900-01-01 00:00:0.0";
  ds_time_calendar := "gregorian";
  ds_u := [[ [[nan; 0]] ]]%float;
  ds_v := [[ [[1; 0]] ]]%float
|}.

(** The stored grid of the sample under the sensitivity [-2]. *)
Definition negative_windspeed : grid :=
  [[-20; -0; -10; -0]; [-0; -26; -0; -0]]%float.

(** The arguments with another value of [--threshold]. *)
Definition with_threshold (t : float) (args : Namespace) : Namespace :=
  {| threshold := t; area := area args; level := level args;
     outdir := outdir args; dpi := dpi args; listlevels := listlevels args;
     datafile := datafile args |}.

(** What the pass for time index [k] and time value [t] renders and saves
    when the object holds the dataset [d]: the map, the name of the image,
    and what the pass adds to the trace when the save succeeds. *)
Definition expected_map (num2date : Z -> string -> string -> datetime)
    (args : Namespace) (box : bounds) (d : Dataset) (k : nat) (t : Z)
  : option JetStreamMap :=
  let timestr :=
    strftime_Ymd (num2date t (ds_time_units d) (ds_time_calendar d)) in
  match calc_windspeed_values d k (level args) None with
  | Ok (lon', lat', g) =>
      Some {| map_bounds := box; map_lon := Some lon';
              map_lat := Some lat'; map_windspeed := Some g;
              map_title :=
                if level args =? 250 then "Jet Stream " +:+ timestr
                else "Winds " +:+ fmt_d (level args) +:+ " mb "
                     +:+ timestr |}
  | Raise _ => None
  end.

Definition expected_name (num2date : Z -> string -> string -> datetime)
    (args : Namespace) (d : Dataset) (t : Z) : string :=
  outdir args +:+ "/"
  +:+ strftime_Ymd (num2date t (ds_time_units d) (ds_time_calendar d))
  +:+ "-" +:+ fmt_d (level args) +:+ ".png".

Definition expected_block (num2date : Z -> string -> string -> datetime)
    (args : Namespace) (box : bounds) (d : Dataset) (k : nat) (t : Z)
  : list event :=
  match expected_map num2date args box d k t with
  | Some m =>
      [EvRender m; EvSavefig (expected_name num2date args d t) (dpi args);
       EvPrint (expected_name num2date args d t); EvClose]
  | None => []
  end.


(** A request for a level that the sample does not have. *)
Definition unknown_level_args : Namespace := {|
  threshold := 0%float;
  area := "-180,180,-70,74";
  level := 300;
  outdir := "outdir";
  dpi := 100;
  listlevels := false;
  datafile := "file.nc"
|}.

(** A dataset with no timestep. *)
Definition timeless_dataset : Dataset := {|
  ds_level := [250];
  ds_longitude := [0; 180]%Q;
  ds_latitude := [0]%Q;
  ds_time := [];
  ds_time_units := "hours since 1900-01-01 00:00:0.0";
  ds_time_calendar := "gregorian";
  ds_u := [];
  ds_v := []
|}.

Definition timeless_open_dataset (s : string) : result Dataset :=
  Ok timeless_dataset.




(** A listing of the levels, and an output path whose parent is missing. *)
Definition listing_args : Namespace := {|
  threshold := 0%float;
  area := "-180,180,-70,74";
  level := 250;
  outdir := "outdir";
  dpi := 100;
  listlevels := true;
  datafile := "file.nc"
|}.

Definition nested_args : Namespace := {|
  threshold := 0%float;
  area := "-180,180,-70,74";
  level := 250;
  outdir := "a/b";
  dpi := 100;
  listlevels := false;
  datafile := "file.nc"
|}.
(** * Properties *)

(** ** The definitions on small inputs *)

Example find_level_250 : find_level [1000; 850; 250] 250 = Ok 2%nat.
Proof. reflexivity. Qed.

Example find_level_500 :
  find_level [1000; 850; 250] 500
  = Raise (ValueError "No 500 hPa level (maybe check with -L?)").
Proof. reflexivity. Qed.

Example calc_windspeed_example :
  calc_windspeed (ERAJetStreamData_init example_dataset) 0 250 (Some 1%float)
  = (Ok tt, {| data := example_dataset;
               lon := Some [180 - 360; 270 - 360; 0; 90]%Q;
               lat := Some [45; 0]%Q;
               windspeed := Some [[10;0;5;0];[0;13;0;0]]%float |}).
Proof. vm_compute. reflexivity. Qed.

Example strftime_example :
  strftime_Ymd {| year := 2014; month := 2; day := 9 |} = "2014-02-09".
Proof. reflexivity. Qed.

(** ** The level lookup *)

Lemma enumerate_levels_Some levels : forall k level i,
  enumerate_levels k levels level = Some i ->
  exists j, i = (k + j)%nat /\ levels !! j = Some level /\
            forall j', (j' < j)%nat -> levels !! j' <> Some level.
Proof.
  induction levels as [|m rest IH]; intros k level i H; simpl in H.
  - discriminate.
  - destruct (Z.eqb_spec m level) as [->|Hne].
    + inversion H; subst. exists 0%nat. repeat split.
      * lia.
      * intros j' Hj'. lia.
    + apply IH in H as (j & -> & Hj & Hfirst).
      exists (S j). repeat split; [lia | exact Hj |].
      intros [|j'] Hlt; simpl.
      * intros [=]. contradiction.
      * apply Hfirst. lia.
Qed.

Lemma enumerate_levels_None levels : forall k level,
  enumerate_levels k levels level = None -> level ∉ levels.
Proof.
  induction levels as [|m rest IH]; intros k level H; simpl in H.
  - apply not_elem_of_nil.
  - destruct (Z.eqb_spec m level) as [->|Hne]; [discriminate|].
    apply not_elem_of_cons. split; [congruence | eauto].
Qed.

Lemma find_level_Ok levels level i :
  find_level levels level = Ok i ->
  levels !! i = Some level /\
  forall j, (j < i)%nat -> levels !! j <> Some level.
Proof.
  unfold find_level. destruct (enumerate_levels 0 levels level) eqn:E; [|discriminate].
  intros [= <-]. apply enumerate_levels_Some in E as (j & -> & Hj & Hfirst).
  simpl. auto.
Qed.

Lemma find_level_present levels level :
  level ∈ levels -> exists i, find_level levels level = Ok i.
Proof.
  intros Hin. unfold find_level.
  destruct (enumerate_levels 0 levels level) eqn:E; [eauto|].
  apply enumerate_levels_None in E. contradiction.
Qed.

Lemma find_level_absent levels level :
  level ∉ levels ->
  find_level levels level = Raise (ValueError (no_level_message level)).
Proof.
  intros Hnin. unfold find_level.
  destruct (enumerate_levels 0 levels level) eqn:E; [|reflexivity].
  apply enumerate_levels_Some in E as (j & _ & Hj & _).
  exfalso. apply Hnin. eapply list_elem_of_lookup_2; eauto.
Qed.

Lemma append_assoc (a b c : string) : (a +:+ b) +:+ c = a +:+ (b +:+ c).
Proof.
  induction a as [|ch a IH]; [reflexivity|].
  change (String ch ((a +:+ b) +:+ c) = String ch (a +:+ b +:+ c)).
  now rewrite IH.
Qed.

Lemma no_level_message_contents level :
  occurs_in (fmt_d level) (no_level_message level) /\
  occurs_in "check with -L" (no_level_message level).
Proof.
  unfold occurs_in, no_level_message. split.
  - exists "No ", " hPa level (maybe check with -L?)". reflexivity.
  - exists ("No " +:+ fmt_d level +:+ " hPa level (maybe "), "?)".
    rewrite !append_assoc. reflexivity.
Qed.

(** C2 (as amended).  When the target is on the level axis the lookup
    returns the first index that holds it, which is the only one when the
    axis has no repeated level; when the target is not on the axis the
    lookup raises [ValueError] (the spec's LevelNotFoundError) with the
    message "No <level> hPa level (maybe check with -L?)", which names the
    requested level and points at the option that lists the levels. *)
Theorem find_level_first_or_error (levels : list Z) (target : Z) :
  (target ∈ levels ->
   exists i, find_level levels target = Ok i /\
             levels !! i = Some target /\
             (forall j, levels !! j = Some target -> (i <= j)%nat) /\
             (NoDup levels -> forall j, levels !! j = Some target -> j = i)) /\
  (target ∉ levels ->
   exists msg, find_level levels target = Raise (ValueError msg) /\
               msg = "No " +:+ fmt_d target +:+ " hPa level (maybe check with -L?)" /\
               occurs_in (fmt_d target) msg /\
               occurs_in "check with -L" msg).
Proof.
  split.
  - intros Hin. destruct (find_level_present _ _ Hin) as [i Hi].
    destruct (find_level_Ok _ _ _ Hi) as [Hat Hfirst].
    exists i. repeat split; trivial.
    + intros j Hj. destruct (le_lt_dec i j) as [|Hlt]; [assumption|].
      exfalso. exact (Hfirst j Hlt Hj).
    + intros Hnd j Hj. eapply NoDup_lookup; eauto.
  - intros Hnin. exists (no_level_message target).
    split; [now apply find_level_absent|].
    split; [reflexivity | apply no_level_message_contents].
Qed.

Lemma find_level_first_or_error_witness :
  (exists i, find_level [1000; 850; 250] 250 = Ok i /\
             [1000; 850; 250] !! i = Some 250 /\
             (forall j, [1000; 850; 250] !! j = Some 250 -> (i <= j)%nat) /\
             (NoDup [1000; 850; 250] ->
              forall j, [1000; 850; 250] !! j = Some 250 -> j = i)) /\
  (exists msg, find_level [1000; 850; 250] 500 = Raise (ValueError msg) /\
               msg = "No 500 hPa level (maybe check with -L?)").
Proof.
  split.
  - apply (proj1 (find_level_first_or_error [1000; 850; 250] 250)).
    apply list_elem_of_In. simpl. tauto.
  - destruct (proj2 (find_level_first_or_error [1000; 850; 250] 500))
      as (msg & Hr & Hm & _).
    + rewrite list_elem_of_In. simpl. intros [H|[H|[H|[]]]]; discriminate.
    + exists msg. split; [exact Hr | exact Hm].
Defined.

(** C2, the claim as written fails: on an axis that lists the target twice
    the lookup answers, and no index is the only one that holds the
    target. *)
Lemma find_level_unique_counterexample :
  find_level [250; 250] 250 = Ok 0%nat /\
  ~ (exists i, find_level [250; 250] 250 = Ok i /\
               [250; 250] !! i = Some 250 /\
               forall j, [250; 250] !! j = Some 250 -> j = i).
Proof.
  split; [reflexivity|].
  intros (i & Hi & _ & Huniq).
  pose proof (Huniq 0%nat eq_refl) as H0.
  pose proof (Huniq 1%nat eq_refl) as H1.
  congruence.
Qed.

(** C9.  When the level axis of the dataset holds the target at some
    position, possibly at several, the lookup of [calc_windspeed] stops at
    the smallest such position: the index it leaves in [levindex] holds the
    target, no earlier position does, and the rest of the method works at
    that index. *)
Theorem level_lookup_first_occurrence (d : Dataset) (idx : nat) (level : Z)
    (sensitivity : option float) (j : nat) :
  ds_level d !! j = Some level ->
  exists i, find_level (ds_level d) level = Ok i /\
            (i <= j)%nat /\
            ds_level d !! i = Some level /\
            (forall k, (k < i)%nat -> ds_level d !! k <> Some level) /\
            calc_windspeed_values d idx level sensitivity
            = calc_windspeed_at d idx level (default 0%float sensitivity) i.
Proof.
  intros Hj.
  assert (Hin : level ∈ ds_level d) by (eapply list_elem_of_lookup_2; eauto).
  destruct (find_level_present _ _ Hin) as [i Hi].
  destruct (find_level_Ok _ _ _ Hi) as [Hat Hfirst].
  exists i. repeat split; trivial.
  - destruct (le_lt_dec i j) as [|Hlt]; [assumption|].
    exfalso. exact (Hfirst j Hlt Hj).
  - unfold calc_windspeed_values. rewrite Hi. reflexivity.
Qed.

Lemma level_lookup_first_occurrence_witness :
  exists i, find_level [500; 250; 1000; 250] 250 = Ok i /\
            (i <= 3)%nat /\
            [500; 250; 1000; 250] !! i = Some 250 /\
            (forall k, (k < i)%nat -> [500; 250; 1000; 250] !! k <> Some 250) /\
            calc_windspeed_values repeated_level_dataset 0 250 (Some 1%float)
            = calc_windspeed_at repeated_level_dataset 0 250 1%float i.
Proof.
  apply (level_lookup_first_occurrence repeated_level_dataset 0 250
           (Some 1%float) 3).
  reflexivity.
Defined.

(** ** The sensitivity factor *)

Lemma default_sensitivity_nonzero level :
  (default_sensitivity level =? 0)%float = false.
Proof. unfold default_sensitivity. destruct (level =? 250); reflexivity. Qed.

Lemma set_sensitivity_default level :
  set_sensitivity level (default_sensitivity level) = default_sensitivity level.
Proof.
  unfold set_sensitivity. now rewrite default_sensitivity_nonzero.
Qed.

Lemma set_sensitivity_zero level s :
  (s =? 0)%float = true -> set_sensitivity level s = default_sensitivity level.
Proof. unfold set_sensitivity. now intros ->. Qed.

Lemma set_sensitivity_nonzero level s :
  (s =? 0)%float = false -> set_sensitivity level s = s.
Proof. unfold set_sensitivity. now intros ->. Qed.

Lemma calc_windspeed_at_set_sensitivity d idx level s levindex :
  calc_windspeed_at d idx level s levindex
  = calc_windspeed_at d idx level (set_sensitivity level s) levindex.
Proof.
  unfold calc_windspeed_at.
  assert (set_sensitivity level (set_sensitivity level s)
          = set_sensitivity level s) as ->; [|reflexivity].
  unfold set_sensitivity at 2 3.
  destruct (s =? 0)%float eqn:E.
  - apply set_sensitivity_default.
  - now apply set_sensitivity_nonzero.
Qed.

(** ** The frame of calc_windspeed *)

(** C6.  [calc_windspeed] leaves the dataset as it was: the level,
    longitude, latitude and time axes and the fields [u] and [v] of the
    object after the call are those before it.  When the call succeeds the
    latitudes it stores are the latitude axis of the dataset; when it
    raises, the whole object is as it was. *)
Theorem calc_windspeed_frame (self : ERAJetStreamData) (idx : nat)
    (level : Z) (sensitivity : option float) :
  let r := calc_windspeed self idx level sensitivity in
  data (snd r) = data self /\
  ds_level (data (snd r)) = ds_level (data self) /\
  ds_longitude (data (snd r)) = ds_longitude (data self) /\
  ds_latitude (data (snd r)) = ds_latitude (data self) /\
  ds_time (data (snd r)) = ds_time (data self) /\
  ds_u (data (snd r)) = ds_u (data self) /\
  ds_v (data (snd r)) = ds_v (data self) /\
  match fst r with
  | Ok _ => lat (snd r) = Some (ds_latitude (data self))
  | Raise _ => snd r = self
  end.
Proof.
  unfold calc_windspeed, calc_windspeed_values.
  destruct (find_level (ds_level (data self)) level) as [i|e]; simpl;
    [|repeat split; reflexivity].
  unfold calc_windspeed_at.
  destruct (field_at (ds_u (data self)) idx i) as [u|e]; simpl;
    [|repeat split; reflexivity].
  destruct (field_at (ds_v (data self)) idx i) as [v|e]; simpl;
    [|repeat split; reflexivity].
  destruct (magnitude _ u v) as [g|e]; simpl; repeat split; reflexivity.
Qed.

(** ** Order on the rationals, as the checks compute it *)

Lemma Qlt_bool_iff x y : Qlt_bool x y = true <-> (x < y)%Q.
Proof.
  unfold Qlt_bool. rewrite negb_true_iff, <- not_true_iff_false, Qle_bool_iff.
  split; [apply Qnot_le_lt | apply Qlt_not_le].
Qed.

Lemma Qle_bool_false x y : Qle_bool x y = false <-> (y < x)%Q.
Proof.
  rewrite <- not_true_iff_false, Qle_bool_iff.
  split; [apply Qnot_le_lt | apply Qlt_not_le].
Qed.

Lemma within_Forall lo hi l :
  within lo hi l = true <-> Forall (fun x => (lo <= x)%Q /\ (x < hi)%Q) l.
Proof.
  unfold within. rewrite forallb_forall, Forall_forall.
  split; intros H x Hx.
  - apply list_elem_of_In, H, andb_true_iff in Hx.
    now rewrite Qle_bool_iff, Qlt_bool_iff in Hx.
  - apply list_elem_of_In, H in Hx.
    now rewrite andb_true_iff, Qle_bool_iff, Qlt_bool_iff.
Qed.

Lemma increasing_cons x l :
  increasing (x :: l) = true <->
  match l with y :: _ => (x < y)%Q | [] => True end /\ increasing l = true.
Proof.
  destruct l as [|y l]; simpl; [tauto|].
  rewrite andb_true_iff, Qlt_bool_iff. reflexivity.
Qed.

Lemma increasing_StronglySorted l :
  increasing l = true <-> StronglySorted Qlt l.
Proof.
  induction l as [|x l IH]; [split; [constructor | reflexivity]|].
  rewrite increasing_cons, StronglySorted_cons, IH. split.
  - intros [Hhd Hl]. split; [|assumption].
    destruct Hl as [|y l Hl Hy]; constructor; [assumption|].
    eapply Forall_impl; [exact Hy|]. intros z Hz. simpl in Hz.
    eapply Qlt_trans; eassumption.
  - intros [Hall Hl]. split; [|assumption].
    destruct l as [|y l]; [trivial|]. now inversion Hall.
Qed.

(** ** The grid shift *)

Lemma cut_index_le lon0 l : (cut_index lon0 l <= length l)%nat.
Proof.
  induction l as [|x l IH]; simpl; [lia|].
  destruct (Qle_bool lon0 x); simpl; lia.
Qed.

Lemma cut_index_take lon0 l :
  Forall (fun x => (x < lon0)%Q) (take (cut_index lon0 l) l).
Proof.
  induction l as [|x l IH]; simpl; [constructor|].
  destruct (Qle_bool lon0 x) eqn:E; simpl; constructor; [|assumption].
  now apply Qle_bool_false.
Qed.

Lemma cut_index_drop lon0 l :
  StronglySorted Qlt l ->
  Forall (fun x => (lon0 <= x)%Q) (drop (cut_index lon0 l) l).
Proof.
  induction 1 as [|x l Hl IH Hx]; simpl; [constructor|].
  destruct (Qle_bool lon0 x) eqn:E; simpl; [|assumption].
  apply Qle_bool_iff in E. constructor; [assumption|].
  eapply Forall_impl; [exact Hx|]. intros y Hy. simpl in Hy. lra.
Qed.

Lemma cut_index_app_reached lon0 l1 l2 :
  Forall (fun x => (x < lon0)%Q) l1 ->
  match l2 with x :: _ => (lon0 <= x)%Q | [] => True end ->
  cut_index lon0 (l1 ++ l2) = length l1.
Proof.
  induction 1 as [|x l Hx Hl IH]; simpl; intros H2.
  - destruct l2 as [|y l2]; simpl; [reflexivity|].
    apply Qle_bool_iff in H2. now rewrite H2.
  - apply Qle_bool_false in Hx. rewrite Hx, IH; trivial.
Qed.

Lemma map_lookup {A B} (f : A -> B) (l : list A) i :
  map f l !! i = f <$> l !! i.
Proof. exact (list_lookup_fmap f l i). Qed.

(** Column [j] of a rotated row is column [(j + i0) mod n] of the row. *)
Lemma rotate_lookup {A} i0 (row : list A) j :
  (i0 <= length row)%nat -> (j < length row)%nat ->
  rotate i0 row !! j = row !! ((j + i0) mod length row)%nat.
Proof.
  intros Hi Hj. unfold rotate.
  destruct (le_lt_dec (length row - i0) j) as [Hge|Hlt].
  - rewrite lookup_app_r by (rewrite length_drop; lia).
    rewrite length_drop, lookup_take_lt by lia. f_equal.
    apply (Nat.mod_unique _ _ 1); lia.
  - rewrite lookup_app_l by (rewrite length_drop; lia).
    rewrite lookup_drop, Nat.mod_small by lia. f_equal. lia.
Qed.

Lemma recentred_as_wrap lonsin :
  StronglySorted Qlt lonsin ->
  map (fun x => x - cyclic)%Q (drop (cut_index 180 lonsin) lonsin)
    ++ take (cut_index 180 lonsin) lonsin
  = map wrap (rotate (cut_index 180 lonsin) lonsin).
Proof.
  intros Hs. unfold rotate. rewrite map_app. f_equal.
  - apply map_ext_Forall. eapply Forall_impl; [apply cut_index_drop, Hs|].
    intros x Hx. simpl in Hx. unfold wrap.
    apply Qle_bool_iff in Hx. now rewrite Hx.
  - rewrite <- (map_id (take _ _)) at 1.
    apply map_ext_Forall. eapply Forall_impl; [apply cut_index_take|].
    intros x Hx. simpl in Hx. unfold wrap.
    apply Qle_bool_false in Hx. now rewrite Hx.
Qed.

Lemma recentred_within lonsin :
  StronglySorted Qlt lonsin ->
  Forall (fun x => (0 <= x)%Q /\ (x < 360)%Q) lonsin ->
  Forall (fun x => (-180 <= x)%Q /\ (x < 180)%Q)
    (map (fun x => x - cyclic)%Q (drop (cut_index 180 lonsin) lonsin)
     ++ take (cut_index 180 lonsin) lonsin).
Proof.
  intros Hs Hr. apply Forall_app. split.
  - apply Forall_fmap.
    pose proof (cut_index_drop 180 lonsin Hs) as Hd.
    pose proof (Forall_drop _ (cut_index 180 lonsin) _ Hr) as Hr'.
    eapply Forall_impl; [exact (proj2 (Forall_and _ _) (conj Hd Hr'))|].
    intros x [H1 [H2 H3]]. simpl. unfold cyclic. lra.
  - pose proof (cut_index_take 180 lonsin) as Ht.
    pose proof (Forall_take _ (cut_index 180 lonsin) _ Hr) as Hr'.
    eapply Forall_impl; [exact (proj2 (Forall_and _ _) (conj Ht Hr'))|].
    intros x [H1 [H2 H3]]. simpl in *. lra.
Qed.

Lemma recentred_sorted lonsin :
  StronglySorted Qlt lonsin ->
  Forall (fun x => (0 <= x)%Q /\ (x < 360)%Q) lonsin ->
  StronglySorted Qlt
    (map (fun x => x - cyclic)%Q (drop (cut_index 180 lonsin) lonsin)
     ++ take (cut_index 180 lonsin) lonsin).
Proof.
  intros Hs Hr.
  pose proof Hs as Hs'.
  rewrite <- (take_drop (cut_index 180 lonsin) lonsin) in Hs'.
  apply StronglySorted_app in Hs' as (_ & Htake & Hdrop).
  apply StronglySorted_app. split; [|split; [|assumption]].
  - intros x1 x2 H1 H2.
    apply list_elem_of_fmap in H1 as (y & -> & Hy).
    pose proof (Forall_drop _ (cut_index 180 lonsin) _ Hr) as Hrd.
    pose proof (Forall_take _ (cut_index 180 lonsin) _ Hr) as Hrt.
    rewrite Forall_forall in Hrd, Hrt.
    specialize (Hrd _ Hy). specialize (Hrt _ H2). simpl in *.
    unfold cyclic. lra.
  - eapply (StronglySorted_fmap _ Qlt Qlt); [|exact Hdrop].
    intros x y Hxy. unfold cyclic. lra.
Qed.

Lemma calc_windspeed_values_Ok d idx level s lon' lat' w' :
  calc_windspeed_values d idx level s = Ok (lon', lat', w') ->
  exists levindex u v g,
    find_level (ds_level d) level = Ok levindex /\
    field_at (ds_u d) idx levindex = Ok u /\
    field_at (ds_v d) idx levindex = Ok v /\
    magnitude (set_sensitivity level (default 0%float s)) u v = Ok g /\
    w' = map (rotate (cut_index 180 (ds_longitude d))) g /\
    lon' = map (fun x => x - cyclic)%Q
             (drop (cut_index 180 (ds_longitude d)) (ds_longitude d))
           ++ take (cut_index 180 (ds_longitude d)) (ds_longitude d) /\
    lat' = ds_latitude d.
Proof.
  unfold calc_windspeed_values.
  destruct (find_level (ds_level d) level) as [i|e]; simpl; [|discriminate].
  unfold calc_windspeed_at.
  destruct (field_at (ds_u d) idx i) as [u|e] eqn:Hu; simpl; [|discriminate].
  destruct (field_at (ds_v d) idx i) as [v|e] eqn:Hv; simpl; [|discriminate].
  destruct (magnitude _ u v) as [g|e] eqn:Hg; simpl; [|discriminate].
  intros [= <- <- <-]. exists i, u, v, g. repeat split; trivial.
Qed.

(** C4.  On a longitude axis that increases within [0, 360), the
    longitudes that [calc_windspeed] stores lie in [-180, 180) and
    increase.  They are the source longitudes rotated by the cut index and
    wrapped (a longitude from 180 on is expressed 360 lower), and every row
    of the stored grid is the row of the magnitude grid rotated by the same
    cut index: stored column [j] holds the source column
    [(j + i0) mod n], for the longitude and for every row alike. *)
Theorem recentred_longitude (d : Dataset) (idx : nat) (level : Z)
    (sensitivity : option float) (lon' lat' : list Q) (w' : grid) :
  increasing (ds_longitude d) = true ->
  within 0 360 (ds_longitude d) = true ->
  calc_windspeed_values d idx level sensitivity = Ok (lon', lat', w') ->
  within (-180) 180 lon' = true /\
  increasing lon' = true /\
  exists i0 levindex u v g,
    find_level (ds_level d) level = Ok levindex /\
    field_at (ds_u d) idx levindex = Ok u /\
    field_at (ds_v d) idx levindex = Ok v /\
    magnitude (set_sensitivity level (default 0%float sensitivity)) u v
    = Ok g /\
    (i0 <= length (ds_longitude d))%nat /\
    lon' = map wrap (rotate i0 (ds_longitude d)) /\
    w' = map (rotate i0) g /\
    (forall j, (j < length (ds_longitude d))%nat ->
       lon' !! j
       = wrap <$> ds_longitude d !! ((j + i0) mod length (ds_longitude d))%nat) /\
    (forall i j row, g !! i = Some row ->
       length row = length (ds_longitude d) ->
       (j < length (ds_longitude d))%nat ->
       cell w' i j = row !! ((j + i0) mod length (ds_longitude d))%nat).
Proof.
  intros Hinc Hin Hcalc.
  apply increasing_StronglySorted in Hinc.
  apply within_Forall in Hin.
  apply calc_windspeed_values_Ok in Hcalc
    as (levindex & u & v & g & Hl & Hu & Hv & Hg & -> & -> & ->).
  split; [apply within_Forall, recentred_within; assumption|].
  split; [apply increasing_StronglySorted, recentred_sorted; assumption|].
  exists (cut_index 180 (ds_longitude d)), levindex, u, v, g.
  pose proof (cut_index_le 180 (ds_longitude d)) as Hle.
  repeat split; trivial.
  - now apply recentred_as_wrap.
  - intros j Hj. rewrite recentred_as_wrap by assumption.
    rewrite map_lookup, rotate_lookup by assumption. reflexivity.
  - intros i j row Hrow Hlen Hj. unfold cell.
    rewrite map_lookup, Hrow. simpl.
    rewrite rotate_lookup by lia. now rewrite Hlen.
Qed.

Lemma recentred_longitude_witness :
  within (-180) 180 [180 - 360; 270 - 360; 0; 90]%Q = true /\
  increasing [180 - 360; 270 - 360; 0; 90]%Q = true /\
  exists i0 levindex u v g,
    find_level (ds_level example_dataset) 250 = Ok levindex /\
    field_at (ds_u example_dataset) 0 levindex = Ok u /\
    field_at (ds_v example_dataset) 0 levindex = Ok v /\
    magnitude (set_sensitivity 250 (default 0%float (Some 1%float))) u v
    = Ok g /\
    (i0 <= length (ds_longitude example_dataset))%nat /\
    [180 - 360; 270 - 360; 0; 90]%Q
    = map wrap (rotate i0 (ds_longitude example_dataset)) /\
    [[10;0;5;0];[0;13;0;0]]%float = map (rotate i0) g /\
    (forall j, (j < length (ds_longitude example_dataset))%nat ->
       [180 - 360; 270 - 360; 0; 90]%Q !! j
       = wrap <$> ds_longitude example_dataset
                  !! ((j + i0) mod length (ds_longitude example_dataset))%nat) /\
    (forall i j row, g !! i = Some row ->
       length row = length (ds_longitude example_dataset) ->
       (j < length (ds_longitude example_dataset))%nat ->
       cell [[10;0;5;0];[0;13;0;0]]%float i j
       = row !! ((j + i0) mod length (ds_longitude example_dataset))%nat).
Proof.
  apply (recentred_longitude example_dataset 0 250 (Some 1%float)
           [180 - 360; 270 - 360; 0; 90]%Q [45; 0]%Q
           [[10;0;5;0];[0;13;0;0]]%float).
  - reflexivity.
  - reflexivity.
  - vm_compute. reflexivity.
Defined.

(** ** Shifting back *)

Lemma Q_sub_add_cyclic (x : Q) : (x - cyclic + cyclic)%Q = x.
Proof.
  destruct x as [n d]. unfold cyclic, Qminus, Qplus, Qopp. simpl.
  rewrite !Pos.mul_1_r. f_equal. lia.
Qed.

Lemma rotate_back {A} i0 (row : list A) :
  (i0 <= length row)%nat ->
  rotate (length row - i0) (rotate i0 row) = row.
Proof.
  intros Hi. unfold rotate.
  rewrite drop_app_length', take_app_length' by (rewrite length_drop; lia).
  apply take_drop.
Qed.

Lemma rectangular_Forall {A} n (g : list (list A)) :
  rectangular n g = true <-> Forall (fun row => length row = n) g.
Proof.
  unfold rectangular. rewrite forallb_forall, Forall_forall.
  split; intros H row Hrow.
  - apply list_elem_of_In, H in Hrow. now apply Nat.eqb_eq.
  - apply list_elem_of_In, H in Hrow. now apply Nat.eqb_eq.
Qed.

Lemma shifted_cut_index lonsin :
  Forall (fun x => (0 <= x)%Q /\ (x < 360)%Q) lonsin ->
  cut_index 0
    (map (fun x => x - cyclic)%Q (drop (cut_index 180 lonsin) lonsin)
     ++ take (cut_index 180 lonsin) lonsin)
  = (length lonsin - cut_index 180 lonsin)%nat.
Proof.
  intros Hr.
  rewrite cut_index_app_reached.
  - now rewrite length_map, length_drop.
  - apply Forall_fmap.
    eapply Forall_impl; [exact (Forall_drop _ (cut_index 180 lonsin) _ Hr)|].
    intros x [H0 H1]. simpl. unfold cyclic. lra.
  - pose proof (Forall_take _ (cut_index 180 lonsin) _ Hr) as Ht.
    destruct (take (cut_index 180 lonsin) lonsin) as [|x rest]; [trivial|].
    inversion Ht as [|? ? [H0 _] _]; subst. exact H0.
Qed.

(** C5.  For a longitude axis within [0, 360) and a grid whose rows have
    one column per longitude, re-centring (the shift of [calc_windspeed],
    ending at 180) followed by the shift back (starting at 0) gives the
    longitudes and the grid one started from. *)
Theorem shiftgrid_round_trip {A : Type} (datain : list (list A))
    (lonsin : list Q) :
  within 0 360 lonsin = true ->
  rectangular (length lonsin) datain = true ->
  shiftgrid 0 (fst (shiftgrid 180 datain lonsin false))
              (snd (shiftgrid 180 datain lonsin false)) true
  = (datain, lonsin).
Proof.
  intros Hr Hshape.
  apply within_Forall in Hr. apply rectangular_Forall in Hshape.
  pose proof (cut_index_le 180 lonsin) as Hle.
  unfold shiftgrid at 1. simpl fst. simpl snd.
  rewrite (shifted_cut_index lonsin Hr). f_equal.
  - rewrite map_map. rewrite <- (map_id datain) at 2.
    apply map_ext_Forall. eapply Forall_impl; [exact Hshape|].
    intros row Hrow. simpl in Hrow. rewrite <- Hrow. apply rotate_back. lia.
  - rewrite drop_app_length', take_app_length'
      by (rewrite length_map, length_drop; lia).
    rewrite map_map.
    rewrite (map_ext _ (fun x => x) Q_sub_add_cyclic), map_id.
    apply take_drop.
Qed.

Lemma shiftgrid_round_trip_witness :
  shiftgrid 0
    (fst (shiftgrid 180 [[10;0;5;0];[0;13;0;0]]%float [0; 90; 180; 270]%Q false))
    (snd (shiftgrid 180 [[10;0;5;0];[0;13;0;0]]%float [0; 90; 180; 270]%Q false))
    true
  = ([[10;0;5;0];[0;13;0;0]]%float, [0; 90; 180; 270]%Q).
Proof.
  apply (shiftgrid_round_trip [[10;0;5;0];[0;13;0;0]]%float
           [0; 90; 180; 270]%Q); reflexivity.
Defined.

(** ** Success of calc_windspeed *)

Lemma calc_windspeed_values_intro d idx level s levindex u v g :
  find_level (ds_level d) level = Ok levindex ->
  field_at (ds_u d) idx levindex = Ok u ->
  field_at (ds_v d) idx levindex = Ok v ->
  magnitude (set_sensitivity level (default 0%float s)) u v = Ok g ->
  calc_windspeed_values d idx level s
  = Ok (map (fun x => x - cyclic)%Q
          (drop (cut_index 180 (ds_longitude d)) (ds_longitude d))
        ++ take (cut_index 180 (ds_longitude d)) (ds_longitude d),
        ds_latitude d,
        map (rotate (cut_index 180 (ds_longitude d))) g).
Proof.
  intros Hl Hu Hv Hg. unfold calc_windspeed_values. rewrite Hl. simpl.
  unfold calc_windspeed_at. rewrite Hu. simpl. rewrite Hv. simpl.
  rewrite Hg. reflexivity.
Qed.

Lemma field_at_ok d field idx levindex :
  field_ok d field = true ->
  (idx < length (ds_time d))%nat -> (levindex < length (ds_level d))%nat ->
  exists g, field_at field idx levindex = Ok g /\ grid_ok d g = true.
Proof.
  unfold field_ok. rewrite andb_true_iff, Nat.eqb_eq, forallb_forall.
  intros [Hlen Hall] Hidx Hlev. unfold field_at.
  destruct (lookup_lt_is_Some_2 field idx) as [levels Hlevels]; [lia|].
  rewrite Hlevels.
  apply list_elem_of_lookup_2, list_elem_of_In, Hall in Hlevels.
  apply andb_true_iff in Hlevels as [Hl Hgrids].
  apply Nat.eqb_eq in Hl. rewrite forallb_forall in Hgrids.
  destruct (lookup_lt_is_Some_2 levels levindex) as [g Hg]; [lia|].
  rewrite Hg. exists g. split; [reflexivity|].
  now apply list_elem_of_lookup_2, list_elem_of_In, Hgrids in Hg.
Qed.

Lemma grid_ok_lengths d (g : grid) :
  grid_ok d g = true ->
  length <$> g
  = replicate (length (ds_latitude d)) (length (ds_longitude d)).
Proof.
  unfold grid_ok. rewrite andb_true_iff, Nat.eqb_eq, rectangular_Forall.
  intros [<- Hrows].
  induction Hrows as [|row g Hrow _ IH]; csimpl; [reflexivity|].
  now rewrite Hrow, IH.
Qed.

Lemma grid_ok_rectangular d (g : grid) :
  grid_ok d g = true -> rectangular (length (ds_longitude d)) g = true.
Proof. unfold grid_ok. rewrite andb_true_iff. tauto. Qed.

Lemma magnitude_total d s (u v : grid) :
  grid_ok d u = true -> grid_ok d v = true ->
  exists g, magnitude s u v = Ok g.
Proof.
  intros Hu Hv. unfold magnitude, grid_add.
  assert (same_shape (grid_map square u) (grid_map square v) = true) as ->.
  { unfold same_shape, grid_map. apply bool_decide_eq_true.
    change (length <$> (map square <$> u) = length <$> (map square <$> v)).
    assert (Hsq : forall g : grid, length <$> (map square <$> g) = length <$> g).
    { intros g. rewrite <- list_fmap_compose.
      apply list_fmap_ext. intros i row _. simpl. apply length_map. }
    rewrite !Hsq, (grid_ok_lengths d u Hu), (grid_ok_lengths d v Hv).
    reflexivity. }
  simpl. eauto.
Qed.

(** On a well-shaped dataset a call for a time index of the time axis and
    a level of the level axis succeeds. *)
Lemma calc_windspeed_values_total d idx level s :
  well_shaped d = true ->
  (idx < length (ds_time d))%nat -> level ∈ ds_level d ->
  exists v, calc_windspeed_values d idx level s = Ok v.
Proof.
  intros Hshape Hidx Hlevel.
  apply andb_true_iff in Hshape as [Hsu Hsv].
  destruct (find_level_present _ _ Hlevel) as [levindex Hl].
  pose proof (proj1 (find_level_Ok _ _ _ Hl)) as Hat.
  apply lookup_lt_Some in Hat.
  destruct (field_at_ok d _ idx levindex Hsu Hidx Hat) as (u & Hu & Hgu).
  destruct (field_at_ok d _ idx levindex Hsv Hidx Hat) as (v & Hv & Hgv).
  destruct (magnitude_total d (set_sensitivity level (default 0%float s))
              u v Hgu Hgv) as [g Hg].
  eexists. apply (calc_windspeed_values_intro d idx level s levindex u v g);
    assumption.
Qed.

(** ** The text of a date *)

Lemma length_append (a b : string) :
  String.length (a +:+ b) = (String.length a + String.length b)%nat.
Proof.
  induction a as [|ch a IH]; [reflexivity|].
  change (S (String.length (a +:+ b)) = S (String.length a + String.length b)).
  now rewrite IH.
Qed.

Lemma length_zeros n : String.length (zeros n) = n.
Proof.
  induction n as [|n IH]; [reflexivity|].
  change (S (String.length (zeros n)) = S n). now rewrite IH.
Qed.

Lemma length_pad0 width s :
  (String.length s <= width)%nat -> String.length (pad0 width s) = width.
Proof.
  intros H. unfold pad0. rewrite length_append, length_zeros. lia.
Qed.


(** A number of four digits is written with these digits, and a number
    below one hundred is padded to its two digits. *)
Lemma fmt_d_four_digits (n : Z) :
  1000 <= n <= 9999 -> fmt_d n = four_digits n.
Proof.
  intros Hn.
  assert (Hall : forallb (fun k => String.eqb (fmt_d (1000 + Z.of_nat k))
                                     (four_digits (1000 + Z.of_nat k)))
                   (seq 0 (Z.to_nat 9000)) = true) by (vm_compute; reflexivity).
  rewrite forallb_forall in Hall.
  specialize (Hall (Z.to_nat (n - 1000))).
  rewrite Z2Nat.id in Hall by lia.
  replace (1000 + (n - 1000)) with n in Hall by lia.
  apply String.eqb_eq, Hall, in_seq. lia.
Qed.

Lemma pad0_two_digits (n : Z) :
  0 <= n <= 99 -> pad0 2 (fmt_d n) = two_digits n.
Proof.
  intros Hn.
  assert (Hall : forallb (fun k => String.eqb (pad0 2 (fmt_d (Z.of_nat k)))
                                     (two_digits (Z.of_nat k)))
                   (seq 0 100) = true) by (vm_compute; reflexivity).
  rewrite forallb_forall in Hall.
  specialize (Hall (Z.to_nat n)).
  rewrite Z2Nat.id in Hall by lia.
  apply String.eqb_eq, Hall, in_seq. lia.
Qed.

(** For a date with a year of four digits the text is YYYY-MM-DD. *)
Lemma strftime_Ymd_digits (d : datetime) :
  1000 <= year d <= 9999 -> 1 <= month d <= 12 -> 1 <= day d <= 31 ->
  strftime_Ymd d
  = four_digits (year d) +:+ "-" +:+ two_digits (month d) +:+ "-"
    +:+ two_digits (day d).
Proof.
  intros Hy Hm Hd. unfold strftime_Ymd.
  rewrite (fmt_d_four_digits _ Hy), !pad0_two_digits by lia. reflexivity.
Qed.



(** ** The driver *)

Section DriverFacts.
Context {FS : Type}.
Variable os : OS FS.
Variable num2date : Z -> string -> string -> datetime.
Variables (args : Namespace) (box : bounds) (timeunits cal : string).

(** The name of the image of the timestep with time value [t]. *)
Local Abbreviation image t :=
  (figname_of (outdir args) (strftime_Ymd (num2date t timeunits cal))
              (level args)).

(** What a pass adds to the trace when its save succeeds. *)
Local Abbreviation is_block :=
  (fun t block =>
     exists m s s',
       savefig os m (image t) (dpi args) s = Ok s' /\
       block = [EvRender m; EvSavefig (image t) (dpi args);
                EvPrint (image t); EvClose]).

(** The three ways of a pass: [calc_windspeed] raises and nothing is
    output; the save raises after the rendering; or the image is saved and
    its name printed. *)
Lemma timestep_cases i t JSdata w :
  match calc_windspeed JSdata i (level args) None with
  | (Raise e, _) =>
      timestep os num2date args box timeunits cal i t JSdata w = (Raise e, w)
  | (Ok _, J) =>
      let m := create_map J (level args)
                 (strftime_Ymd (num2date t timeunits cal)) box in
      match savefig os m (image t) (dpi args) (fs w) with
      | Raise e =>
          timestep os num2date args box timeunits cal i t JSdata w
          = (Raise e, {| fs := fs w; trace := trace w ++ [EvRender m] |})
      | Ok fs' =>
          timestep os num2date args box timeunits cal i t JSdata w
          = (Ok J, {| fs := fs';
                      trace := trace w ++ [EvRender m;
                                           EvSavefig (image t) (dpi args);
                                           EvPrint (image t); EvClose] |})
      end
  end.
Proof.
  unfold timestep.
  destruct (calc_windspeed JSdata i (level args) None) as [[[]|e] J];
    [|reflexivity].
  cbv zeta. simpl.
  destruct (savefig os _ _ _ (fs w)) as [fs'|e]; [|reflexivity].
  unfold emit. simpl. rewrite <- !app_assoc. reflexivity.
Qed.

Lemma timestep_loop_spec times : forall i JSdata w o w',
  timestep_loop os num2date args box timeunits cal i times JSdata w = (o, w') ->
  exists n blocks rest,
    (n <= length times)%nat /\
    match o with
    | Completed => n = length times /\ rest = []
    | SysExit _ => False
    | Uncaught _ => (n < length times)%nat
    end /\
    (rest = [] \/ exists m, rest = [EvRender m]) /\
    Forall2 is_block (take n times) blocks /\
    trace w' = trace w ++ concat blocks ++ rest.
Proof.
  induction times as [|t rest IH]; intros i JSdata w o w' H; simpl in H.
  - inversion H; subst. exists 0%nat, [], []. simpl.
    rewrite app_nil_r. repeat split; auto.
  - pose proof (timestep_cases i t JSdata w) as Hstep.
    destruct (calc_windspeed JSdata i (level args) None) as [[[]|e] J].
    + cbv zeta in Hstep.
      destruct (savefig os _ (image t) (dpi args) (fs w)) as [fs'|e] eqn:Hsave;
        rewrite Hstep in H.
      * apply IH in H as (n & blocks & rest' & Hn & Ho & Hrest & Hblocks & Htr).
        eexists (S n), (_ :: blocks), rest'. simpl. repeat split.
        -- lia.
        -- destruct o; [split; [now f_equal | tauto] | assumption | lia].
        -- exact Hrest.
        -- constructor; [|exact Hblocks].
           eexists _, _, _. split; [exact Hsave | reflexivity].
        -- rewrite Htr. simpl. rewrite <- !app_assoc. reflexivity.
      * inversion H; subst. eexists 0%nat, [], [_]. simpl.
        repeat split; eauto; lia.
    + rewrite Hstep in H. inversion H; subst. exists 0%nat, [], []. simpl.
      rewrite app_nil_r. repeat split; auto; lia.
Qed.

(** The file system after the loop comes from the one before by saves of
    image names. *)
Lemma timestep_loop_reaches times : forall i JSdata w,
  reaches os args (fs w)
    (fs (snd (timestep_loop os num2date args box timeunits cal
                i times JSdata w))).
Proof.
  induction times as [|t rest IH]; intros i JSdata w; simpl;
    [constructor|].
  pose proof (timestep_cases i t JSdata w) as Hstep.
  destruct (calc_windspeed JSdata i (level args) None) as [[[]|e] J].
  - cbv zeta in Hstep.
    destruct (savefig os _ (image t) (dpi args) (fs w)) as [fs'|e] eqn:Hsave;
      rewrite Hstep.
    + eapply reaches_savefig; [exact Hsave|]. apply (IH (S i) J
        {| fs := fs'; trace := _ |}).
    + constructor.
  - rewrite Hstep. constructor.
Qed.
End DriverFacts.

Lemma calc_windspeed_Ok self idx level s v :
  calc_windspeed_values (data self) idx level s = Ok v ->
  fst (calc_windspeed self idx level s) = Ok tt /\
  data (snd (calc_windspeed self idx level s)) = data self.
Proof.
  unfold calc_windspeed. intros ->. destruct v as [[lon' lat'] w'].
  split; reflexivity.
Qed.

(** When [calc_windspeed] succeeds at every index, the loop completes
    unless a save raises, and then it dies of what the save raised. *)
Lemma timestep_loop_completes {FS : Type} (os : OS FS) num2date args box
    timeunits cal times :
  forall i JSdata w,
    (forall k, (k < length times)%nat ->
       exists v, calc_windspeed_values (data JSdata) (i + k) (level args) None
                 = Ok v) ->
    let o := fst (timestep_loop os num2date args box timeunits cal
                    i times JSdata w) in
    o = Completed \/
    exists e m timestr s,
      savefig os m (figname_of (outdir args) timestr (level args))
              (dpi args) s = Raise e /\
      o = Uncaught e.
Proof.
  induction times as [|t rest IH]; intros i JSdata w Hok; simpl;
    [now left|].
  destruct (Hok 0%nat) as [v Hv]; [simpl; lia|].
  rewrite Nat.add_0_r in Hv.
  destruct (calc_windspeed_Ok JSdata i (level args) None v Hv) as [Hfst Hdata].
  pose proof (timestep_cases os num2date args box timeunits cal i t JSdata w)
    as Hstep.
  destruct (calc_windspeed JSdata i (level args) None) as [r J].
  simpl in Hfst, Hdata. subst r. cbv zeta in Hstep.
  destruct (savefig os _ _ (dpi args) (fs w)) as [fs'|e] eqn:Hsave;
    rewrite Hstep.
  - apply IH. intros k Hk. rewrite Hdata.
    replace (S i + k)%nat with (i + S k)%nat by lia.
    apply Hok. simpl. lia.
  - right. simpl. eauto 10.
Qed.





Example example_loop_trace :
  exists m, trace (snd example_loop)
            = [EvRender m; EvSavefig "outdir/2014-02-09-250.png" 100;
               EvPrint "outdir/2014-02-09-250.png"; EvClose].
Proof. eexists. vm_compute. reflexivity. Qed.

Lemma print_levels_spec {FS : Type} levels : forall w : world FS,
  fs (print_levels levels w) = fs w /\
  trace (print_levels levels w)
  = trace w ++ map (fun l => EvPrint ("   " +:+ " " +:+ fmt_d l)) levels.
Proof.
  unfold print_levels.
  induction levels as [|l rest IH]; intros w; simpl.
  - now rewrite app_nil_r.
  - destruct (IH (emit (EvPrint ("   " +:+ " " +:+ fmt_d l)) w)) as [Hfs Htr].
    rewrite Hfs, Htr. simpl. now rewrite <- app_assoc.
Qed.

(** What the run does at the output path before the loop. *)
Lemma main_run {FS : Type} (os : OS FS) parse_area open_dataset num2date
    args (w w0 : world FS) box d :
  parse_area (area args) = Ok box ->
  open_dataset (datafile args) = Ok d ->
  listlevels args = false ->
  prepared os (outdir args) w w0 ->
  main os parse_area open_dataset num2date args w
  = timestep_loop os num2date args box (ds_time_units d) (ds_time_calendar d)
      0 (ds_time d) (ERAJetStreamData_init d) w0.
Proof.
  intros Hparse Hopen Hlist Hprep. unfold main.
  rewrite Hparse, Hopen, Hlist.
  destruct Hprep as [(He & Hd & ->)|(He & fs' & Hmk & ->)].
  - rewrite He, Hd. reflexivity.
  - rewrite He, Hmk. reflexivity.
Qed.

(** C8.  Once the area is read and the data file is open:
    - in the level-listing mode the run prints the header and one line per
      level and exits with code 0, whatever is at the output path, which
      is not even looked at;
    - otherwise, when the output path exists and is not a directory, the
      run prints the conflict and exits with code 1: that line is all it
      outputs, so no timestep is processed and no image is saved, and the
      file system is as it was;
    - otherwise, when nothing is at the output path, [os.mkdir] is called
      on it; if that call raises, the run dies of what it raised, exit code
      1, with nothing output and the file system as it was;
    - if that call succeeds, the loop starts on the file system it leaves;
    - and once the directory is in place, on a well-shaped dataset whose
      level axis has the requested level, the run completes with exit code
      0 unless a save raises, and then it dies of what the save raised,
      exit code 1. *)
Theorem main_exit_codes {FS : Type} (os : OS FS)
    (parse_area : string -> result bounds)
    (open_dataset : string -> result Dataset)
    (num2date : Z -> string -> string -> datetime)
    (args : Namespace) (w : world FS) (box : bounds) (d : Dataset) :
  parse_area (area args) = Ok box ->
  open_dataset (datafile args) = Ok d ->
  let r := main os parse_area open_dataset num2date args w in
  (listlevels args = true ->
     fst r = SysExit 0 /\ exit_code (fst r) = 0 /\
     fs (snd r) = fs w /\
     trace (snd r)
     = trace w
       ++ EvPrint ("Levels available in dataset " +:+ datafile args +:+ ":")
          :: map (fun l => EvPrint ("   " +:+ " " +:+ fmt_d l)) (ds_level d)) /\
  (listlevels args = false ->
   path_exists os (fs w) (outdir args) = true ->
   path_isdir os (fs w) (outdir args) = false ->
     fst r = SysExit 1 /\ exit_code (fst r) = 1 /\
     fs (snd r) = fs w /\
     trace (snd r)
     = trace w ++ [EvPrint ("Can't create dir " +:+ outdir args
                            +:+ ": there's a file by that name")]) /\
  (listlevels args = false ->
   path_exists os (fs w) (outdir args) = false ->
   forall e, mkdir os (outdir args) (fs w) = Raise e ->
     fst r = Uncaught e /\ exit_code (fst r) = 1 /\ snd r = w) /\
  (listlevels args = false ->
   path_exists os (fs w) (outdir args) = false ->
   forall fs', mkdir os (outdir args) (fs w) = Ok fs' ->
     r = timestep_loop os num2date args box (ds_time_units d)
           (ds_time_calendar d) 0 (ds_time d) (ERAJetStreamData_init d)
           {| fs := fs'; trace := trace w ++ [EvMkdir (outdir args)] |} /\
     exists rest,
       trace (snd r) = trace w ++ EvMkdir (outdir args) :: rest) /\
  (listlevels args = false ->
   forall w0, prepared os (outdir args) w w0 ->
     well_shaped d = true -> level args ∈ ds_level d ->
     (fst r = Completed /\ exit_code (fst r) = 0) \/
     (exists e m timestr s,
        savefig os m (outdir args +:+ "/" +:+ timestr +:+ "-"
                      +:+ fmt_d (level args) +:+ ".png") (dpi args) s
        = Raise e /\
        fst r = Uncaught e /\ exit_code (fst r) = 1)).
Proof.
  intros Hparse Hopen. cbv zeta.
  split; [|split; [|split; [|split]]].
  - intros Hlist. unfold main. rewrite Hparse, Hopen, Hlist. cbv zeta.
    destruct (print_levels_spec (ds_level d)
                (emit (EvPrint ("Levels available in dataset "
                                +:+ datafile args +:+ ":")) w)) as [Hfs Htr].
    unfold list_levels. simpl.
    repeat split; [exact Hfs|]. rewrite Htr. simpl.
    now rewrite <- app_assoc.
  - intros Hlist He Hd. unfold main.
    rewrite Hparse, Hopen, Hlist, He, Hd. simpl. repeat split.
  - intros Hlist He e Hmk. unfold main.
    rewrite Hparse, Hopen, Hlist, He, Hmk. simpl. repeat split.
  - intros Hlist He fs' Hmk.
    rewrite (main_run os _ _ _ _ w _ box d Hparse Hopen Hlist
               (or_intror (conj He (ex_intro _ fs' (conj Hmk eq_refl))))).
    split; [reflexivity|].
    destruct (timestep_loop os num2date args box (ds_time_units d)
                (ds_time_calendar d) 0 (ds_time d) (ERAJetStreamData_init d)
                _) as [o w'] eqn:Hloop.
    apply timestep_loop_spec in Hloop
      as (n & blocks & rest & _ & _ & _ & _ & Htr).
    exists (concat blocks ++ rest). simpl. rewrite Htr. simpl.
    now rewrite <- app_assoc.
  - intros Hlist w0 Hprep Hshape Hlevel.
    rewrite (main_run os _ _ _ _ w w0 box d Hparse Hopen Hlist Hprep).
    destruct (timestep_loop_completes os num2date args box (ds_time_units d)
                (ds_time_calendar d) (ds_time d) 0
                (ERAJetStreamData_init d) w0) as [Hdone|Hsave].
    + intros k Hk. simpl. now apply calc_windspeed_values_total.
    + left. rewrite Hdone. split; reflexivity.
    + right. destruct Hsave as (e & m & timestr & s & Hsave & Ho).
      exists e, m, timestr, s. rewrite Ho. repeat split. exact Hsave.
Qed.

Lemma main_exit_codes_witness :
  (let r := main sample_os example_parse_area example_open_dataset
              example_num2date example_args world_with_file in
   fst r = SysExit 1 /\ exit_code (fst r) = 1 /\
   fs (snd r) = fs world_with_file /\
   trace (snd r)
   = trace world_with_file
     ++ [EvPrint ("Can't create dir " +:+ outdir example_args
                  +:+ ": there's a file by that name")]) /\
  (let r := main sample_os example_parse_area example_open_dataset
              example_num2date nested_args empty_world in
   fst r = Uncaught (OSError "No such file or directory") /\
   exit_code (fst r) = 1 /\ snd r = empty_world) /\
  (let r := main sample_os example_parse_area example_open_dataset
              example_num2date example_args empty_world in
   (fst r = Completed /\ exit_code (fst r) = 0) \/
   (exists e m timestr s,
      savefig sample_os m (outdir example_args +:+ "/" +:+ timestr +:+ "-"
                           +:+ fmt_d (level example_args) +:+ ".png")
              (dpi example_args) s
      = Raise e /\
      fst r = Uncaught e /\ exit_code (fst r) = 1)).
Proof.
  split; [|split].
  - apply (proj1 (proj2 (main_exit_codes sample_os example_parse_area
             example_open_dataset example_num2date example_args
             world_with_file example_box example_dataset eq_refl eq_refl)));
      reflexivity.
  - apply (proj1 (proj2 (proj2 (main_exit_codes sample_os example_parse_area
             example_open_dataset example_num2date nested_args
             empty_world example_box example_dataset eq_refl eq_refl))));
      reflexivity.
  - pose proof (main_exit_codes sample_os example_parse_area
             example_open_dataset example_num2date example_args
             empty_world example_box example_dataset eq_refl eq_refl)
      as (_ & _ & _ & _ & Hdone).
    apply (Hdone eq_refl
             {| fs := {[ ["outdir"] := Dir ]};
                trace := [EvMkdir "outdir"] |}).
    + right. split; [reflexivity|].
      exists {[ ["outdir"] := Dir ]}. split; reflexivity.
    + reflexivity.
    + apply list_elem_of_In. simpl. tauto.
Defined.

(** In the listing mode a regular file at the output path does not make
    the run exit with code 1; and an output path whose parent directory is
    missing is not created: the run dies of the error of [os.mkdir]. *)
Lemma output_path_counterexample :
  (let r := main sample_os example_parse_area example_open_dataset
              example_num2date listing_args world_with_file in
   path_exists sample_os (fs world_with_file) (outdir listing_args) = true /\
   path_isdir sample_os (fs world_with_file) (outdir listing_args) = false /\
   fst r = SysExit 0 /\ exit_code (fst r) = 0) /\
  (let r := main sample_os example_parse_area example_open_dataset
              example_num2date nested_args empty_world in
   path_exists sample_os (fs empty_world) (outdir nested_args) = false /\
   fst r = Uncaught (OSError "No such file or directory") /\
   exit_code (fst r) = 1 /\
   path_exists sample_os (fs (snd r)) (outdir nested_args) = false).
Proof. cbv zeta. repeat split; vm_compute; reflexivity. Qed.

Example main_conflict_output :
  main sample_os example_parse_area example_open_dataset example_num2date
       example_args world_with_file
  = (SysExit 1,
     {| fs := {[ ["outdir"] := File ]};
        trace := [EvPrint "Can't create dir outdir: there's a file by that name"] |}).
Proof. reflexivity. Qed.

Example main_completes :
  let r := main sample_os example_parse_area example_open_dataset
             example_num2date example_args empty_world in
  fst r = Completed /\ exit_code (fst r) = 0 /\
  saved_names (trace (snd r)) = ["outdir/2014-02-09-250.png"] /\
  fs (snd r)
  = <[ ["outdir"] := Dir ]>
      (<[ ["outdir"; "2014-02-09-250.png"] := File ]> ∅).
Proof. cbv zeta. repeat split; vm_compute; reflexivity. Qed.

(** Path texts that name one file: the directory made for ["./outdir"] is
    the one that ["outdir"] names. *)
Example sample_paths :
  normpath "./outdir" = normpath "outdir" /\
  normpath "outdir/" = normpath "outdir" /\
  (s ← sample_mkdir "./outdir" ∅; mret (sample_isdir s "outdir")) = Ok true.
Proof. repeat split; vm_compute; reflexivity. Qed.

(** ** Signs of binary64 results *)

Lemma binary_round_aux_signed s m e l :
  signed s (binary_round_aux prec emax s m e l).
Proof.
  unfold binary_round_aux.
  destruct (shr_fexp prec emax m e l) as [mrs' e'].
  destruct (shr_fexp prec emax _ e' loc_Exact) as [mrs'' e''].
  destruct (shr_m mrs''); simpl; trivial.
  destruct (e'' <=? emax - prec); reflexivity.
Qed.

Lemma binary_round_signed s m e : signed s (binary_round prec emax s m e).
Proof.
  unfold binary_round. destruct (shl_align _ _ _) as [mz ez].
  apply binary_round_aux_signed.
Qed.

Lemma SFmul_signed sx sy x y :
  signed sx x -> signed sy y -> signed (xorb sx sy) (SF64mul x y).
Proof.
  destruct x, y; simpl; intros; subst; trivial.
  apply binary_round_aux_signed.
Qed.

Lemma SFmul_square_signed x : signed false (SF64mul x x).
Proof.
  destruct x as [s|s| |s m e]; simpl; trivial; try (now destruct s).
  destruct s; apply binary_round_aux_signed.
Qed.

Lemma SFadd_signed x y :
  signed false x -> signed false y -> signed false (SF64add x y).
Proof.
  destruct x, y; simpl; intros; subst; simpl; trivial.
  apply binary_round_signed.
Qed.

Lemma SFsqrt_signed x : signed false x -> signed false (SF64sqrt x).
Proof.
  destruct x as [s|s| |s m e]; simpl; intros; subst;
    try solve [trivial | reflexivity].
  destruct (SFsqrt_core_binary _ _ _ _) as [[mz ez] lz].
  apply binary_round_aux_signed.
Qed.

Lemma shr_1_nonneg mrs : 0 <= shr_m mrs -> 0 <= shr_m (shr_1 mrs).
Proof.
  destruct mrs as [m r s]. simpl.
  destruct m as [|p|p]; [simpl; lia| |lia].
  destruct p; simpl; lia.
Qed.

Lemma iter_pos_shr_1_nonneg n : forall mrs,
  0 <= shr_m mrs -> 0 <= shr_m (SpecFloat.iter_pos shr_1 n mrs).
Proof.
  induction n as [n IH|n IH|]; intros mrs H; simpl.
  - apply IH, IH, shr_1_nonneg, H.
  - apply IH, IH, H.
  - apply shr_1_nonneg, H.
Qed.

Lemma shr_fexp_nonneg m e l :
  0 <= m -> 0 <= shr_m (fst (shr_fexp prec emax m e l)).
Proof.
  intros Hm. unfold shr_fexp, shr.
  assert (H0 : 0 <= shr_m (shr_record_of_loc m l))
    by (destruct l as [|[]]; exact Hm).
  destruct (fexp prec emax (Zdigits2 m + e) - e); simpl; trivial.
  now apply iter_pos_shr_1_nonneg.
Qed.

Lemma round_nearest_even_nonneg m l :
  0 <= m -> 0 <= round_nearest_even m l.
Proof.
  intros Hm. destruct l as [|[]]; simpl; try lia.
  destruct (Z.even m); lia.
Qed.

Lemma binary_round_aux_not_nan s m e l :
  0 <= m -> SFis_nan (binary_round_aux prec emax s m e l) = false.
Proof.
  intros Hm. unfold binary_round_aux.
  pose proof (shr_fexp_nonneg m e l Hm) as H1.
  destruct (shr_fexp prec emax m e l) as [mrs' e']. simpl in H1.
  pose proof (shr_fexp_nonneg _ e' loc_Exact
                (round_nearest_even_nonneg _ (loc_of_shr_record mrs') H1)) as H2.
  destruct (shr_fexp prec emax _ e' loc_Exact) as [mrs'' e'']. simpl in H2.
  destruct (shr_m mrs''); [reflexivity | | lia].
  destruct (e'' <=? emax - prec); reflexivity.
Qed.

Lemma binary_round_not_nan s m e :
  SFis_nan (binary_round prec emax s m e) = false.
Proof.
  unfold binary_round. destruct (shl_align _ _ _) as [mz ez].
  apply binary_round_aux_not_nan. lia.
Qed.

Lemma SFmul_square_not_nan x :
  SFis_nan x = false -> SFis_nan (SF64mul x x) = false.
Proof.
  destruct x; simpl; trivial. intros _.
  apply binary_round_aux_not_nan. lia.
Qed.

Lemma SFadd_not_nan x y :
  signed false x -> signed false y ->
  SFis_nan x = false -> SFis_nan y = false ->
  SFis_nan (SF64add x y) = false.
Proof.
  destruct x, y; simpl; intros; subst; simpl; trivial.
  apply binary_round_not_nan.
Qed.

Lemma SFsqrt_core_nonneg m e :
  0 <= fst (fst (SFsqrt_core_binary prec emax (Zpos m) e)).
Proof.
  unfold SFsqrt_core_binary.
  set (e' := Z.min _ _). set (s := e - 2 * e').
  set (m' := match s with Z.pos _ => Z.shiftl (Z.pos m) s
                        | 0 => Z.pos m | Z.neg _ => 0 end).
  assert (Hm' : 0 <= m').
  { subst m'. destruct s; try lia. apply Z.shiftl_nonneg. lia. }
  pose proof (Z.sqrtrem_spec m' Hm') as Hs.
  destruct (Z.sqrtrem m') as [q r]. simpl. lia.
Qed.

Lemma SFsqrt_not_nan x :
  signed false x -> SFis_nan x = false -> SFis_nan (SF64sqrt x) = false.
Proof.
  destruct x as [s|s| |s m e]; simpl; intros; subst;
    try solve [trivial | reflexivity].
  pose proof (SFsqrt_core_nonneg m e) as Hmz.
  destruct (SFsqrt_core_binary _ _ _ _) as [[mz ez] lz]. simpl in Hmz.
  now apply binary_round_aux_not_nan.
Qed.

Lemma SFmul_not_nan sx mx ex y :
  SFis_nan y = false ->
  SFis_nan (SF64mul (S754_finite sx mx ex) y) = false.
Proof.
  destruct y; simpl; trivial; try discriminate. intros _.
  apply binary_round_aux_not_nan. lia.
Qed.

(** ** From primitive floats to their specification *)

Lemma Prim2SF_zero : Prim2SF 0%float = S754_zero false.
Proof. reflexivity. Qed.

Lemma Prim2SF_infinity : Prim2SF infinity = S754_infinity false.
Proof. reflexivity. Qed.

Lemma is_nan_spec x : is_nan x = SFis_nan (Prim2SF x).
Proof.
  unfold is_nan. rewrite FloatAxioms.eqb_spec. unfold SFeqb.
  destruct (Prim2SF x) as [s|s| |s m e]; simpl; trivial.
  - now destruct s.
  - destruct s; rewrite Z.compare_refl, Pos.compare_cont_refl; reflexivity.
Qed.

Lemma positive_spec s :
  (0 <? s)%float = true -> signed false (Prim2SF s).
Proof.
  rewrite FloatAxioms.ltb_spec, Prim2SF_zero. unfold SFltb.
  destruct (Prim2SF s) as [b|b| |b m e]; simpl; try discriminate;
    destruct b; simpl; try discriminate; reflexivity.
Qed.

Lemma positive_finite_spec s :
  (0 <? s)%float = true -> (s <? infinity)%float = true ->
  exists m e, Prim2SF s = S754_finite false m e.
Proof.
  rewrite !FloatAxioms.ltb_spec, Prim2SF_zero, Prim2SF_infinity. unfold SFltb.
  destruct (Prim2SF s) as [b|b| |b m e]; simpl; try discriminate;
    destruct b; simpl; try discriminate; eauto.
Qed.

Lemma positive_nonzero s : (0 <? s)%float = true -> (s =? 0)%float = false.
Proof.
  rewrite FloatAxioms.ltb_spec, FloatAxioms.eqb_spec, Prim2SF_zero. unfold SFltb, SFeqb.
  destruct (Prim2SF s) as [b|b| |b m e]; simpl; try discriminate;
    destruct b; simpl; try discriminate; reflexivity.
Qed.

Lemma signed_false_nonneg c :
  signed false (Prim2SF c) ->
  (c <? 0)%float = false /\ (is_nan c = true \/ (0 <=? c)%float = true).
Proof.
  rewrite FloatAxioms.ltb_spec, FloatAxioms.leb_spec, is_nan_spec, Prim2SF_zero.
  unfold SFltb, SFleb.
  destruct (Prim2SF c) as [b|b| |b m e]; simpl; intros H; subst; auto.
Qed.

Lemma signed_false_not_nan_nonneg c :
  signed false (Prim2SF c) -> is_nan c = false -> (0 <=? c)%float = true.
Proof.
  intros H Hn. destruct (signed_false_nonneg c H) as [_ [Hnan|Hle]];
    [congruence | exact Hle].
Qed.

Lemma windspeed_cell_signed sgn s a b :
  signed sgn (Prim2SF s) -> signed sgn (Prim2SF (windspeed_cell s a b)).
Proof.
  intros Hs. unfold windspeed_cell, square.
  rewrite mul_spec, sqrt_spec, add_spec, !mul_spec.
  rewrite <- (xorb_false_r sgn).
  apply SFmul_signed; [exact Hs|].
  apply SFsqrt_signed, SFadd_signed; apply SFmul_square_signed.
Qed.

Lemma windspeed_cell_not_nan s a b :
  (0 <? s)%float = true -> (s <? infinity)%float = true ->
  is_nan a = false -> is_nan b = false ->
  is_nan (windspeed_cell s a b) = false.
Proof.
  intros Hs Hfin Ha Hb. rewrite is_nan_spec in *.
  unfold windspeed_cell, square.
  destruct (positive_finite_spec s Hs Hfin) as (m & e & Hse).
  rewrite mul_spec, sqrt_spec, add_spec, !mul_spec, Hse.
  apply SFmul_not_nan, SFsqrt_not_nan.
  - apply SFadd_signed; apply SFmul_square_signed.
  - apply SFadd_not_nan; try apply SFmul_square_signed;
      now apply SFmul_square_not_nan.
Qed.

Lemma binary_round_aux_opp s m e l :
  binary_round_aux prec emax (negb s) m e l
  = SFopp (binary_round_aux prec emax s m e l).
Proof.
  unfold binary_round_aux.
  destruct (shr_fexp prec emax m e l) as [mrs' e'].
  destruct (shr_fexp prec emax _ e' loc_Exact) as [mrs'' e''].
  destruct (shr_m mrs''); simpl; trivial.
  destruct (e'' <=? emax - prec); reflexivity.
Qed.

Lemma SFmul_opp_l x y : SF64mul (SFopp x) y = SFopp (SF64mul x y).
Proof.
  destruct x as [sx|sx| |sx mx ex], y as [sy|sy| |sy my ey]; simpl;
    rewrite <- ?negb_xorb_l; trivial.
  apply binary_round_aux_opp.
Qed.

Lemma mul_opp_l (s m : float) : (- s * m)%float = (- (s * m))%float.
Proof.
  apply Prim2SF_inj.
  rewrite mul_spec, !opp_spec, mul_spec. apply SFmul_opp_l.
Qed.

Lemma opp_involutive (c : float) : (- - c)%float = c.
Proof.
  apply Prim2SF_inj. rewrite !opp_spec.
  destruct (Prim2SF c) as [b|b| |b m e]; simpl;
    rewrite ?negb_involutive; reflexivity.
Qed.

Lemma opp_nonzero s : (s =? 0)%float = false -> (- s =? 0)%float = false.
Proof.
  rewrite !FloatAxioms.eqb_spec, opp_spec, Prim2SF_zero. unfold SFeqb.
  destruct (Prim2SF s) as [b|b| |b m e]; simpl; trivial; now destruct b.
Qed.

Lemma negative_spec s : (s <? 0)%float = true -> signed true (Prim2SF s).
Proof.
  rewrite FloatAxioms.ltb_spec, Prim2SF_zero. unfold SFltb.
  destruct (Prim2SF s) as [b|b| |b m e]; simpl; try discriminate;
    destruct b; simpl; try discriminate; reflexivity.
Qed.

Lemma signed_true_nonpos c :
  signed true (Prim2SF c) ->
  (0 <? c)%float = false /\ (is_nan c = true \/ (c <=? 0)%float = true).
Proof.
  rewrite FloatAxioms.ltb_spec, FloatAxioms.leb_spec, is_nan_spec, Prim2SF_zero.
  unfold SFltb, SFleb.
  destruct (Prim2SF c) as [b|b| |b m e]; simpl; intros H; subst; auto.
Qed.

(** ** Cells of the grids *)

Lemma row_cell s (ru rv : list float) j :
  map (PrimFloat.mul s)
    (map PrimFloat.sqrt
       (zip_with PrimFloat.add (map square ru) (map square rv))) !! j
  = (a ← ru !! j; b ← rv !! j; Some (windspeed_cell s a b)).
Proof.
  rewrite !map_lookup, lookup_zip_with, !map_lookup.
  destruct (ru !! j), (rv !! j); reflexivity.
Qed.

Lemma magnitude_cell s u v g i j :
  magnitude s u v = Ok g ->
  cell g i j = (a ← cell u i j; b ← cell v i j; Some (windspeed_cell s a b)).
Proof.
  unfold magnitude, grid_add.
  destruct (same_shape _ _); simpl; [|discriminate].
  intros [= <-]. unfold cell, grid_map.
  rewrite !map_lookup, lookup_zip_with, !map_lookup.
  destruct (u !! i) as [ru|]; simpl; [|reflexivity].
  destruct (v !! i) as [rv|]; simpl.
  - apply row_cell.
  - destruct (ru !! j); reflexivity.
Qed.

Lemma rotate_elem_of {A} i0 (row : list A) x : x ∈ rotate i0 row <-> x ∈ row.
Proof.
  unfold rotate. rewrite <- (take_drop i0 row) at 3.
  rewrite !elem_of_app. tauto.
Qed.

Lemma rotated_cell i0 (g : grid) i j c :
  cell (map (rotate i0) g) i j = Some c -> exists j', cell g i j' = Some c.
Proof.
  unfold cell. rewrite map_lookup.
  destruct (g !! i) as [row|]; simpl; [|discriminate].
  intros H. apply list_elem_of_lookup_2, rotate_elem_of in H.
  now apply list_elem_of_lookup_1 in H.
Qed.

Lemma rotate_map {A B} (f : A -> B) i0 (row : list A) :
  rotate i0 (map f row) = map f (rotate i0 row).
Proof.
  unfold rotate. now rewrite map_app, firstn_map, skipn_map.
Qed.

Lemma magnitude_opp s u v g :
  magnitude s u v = Ok g ->
  magnitude (- s)%float u v = Ok (grid_map PrimFloat.opp g).
Proof.
  unfold magnitude, grid_add.
  destruct (same_shape _ _); simpl; [|discriminate].
  intros [= <-]. f_equal. unfold grid_map.
  match goal with |- map _ ?sq = _ => generalize sq end.
  intros sq. rewrite map_map. apply map_ext. intros row.
  rewrite map_map. apply map_ext. intros m. apply mul_opp_l.
Qed.

Lemma field_at_rectangular d field idx levindex (u : grid) :
  field_ok d field = true ->
  field_at field idx levindex = Ok u ->
  rectangular (length (ds_longitude d)) u = true.
Proof.
  unfold field_ok. rewrite andb_true_iff, forallb_forall.
  intros [_ Hall]. unfold field_at.
  destruct (field !! idx) as [levels|] eqn:H1; [|discriminate].
  destruct (levels !! levindex) as [g|] eqn:H2; [|discriminate].
  intros [= <-].
  apply list_elem_of_lookup_2, list_elem_of_In, Hall in H1.
  apply andb_true_iff in H1 as [_ H1]. rewrite forallb_forall in H1.
  apply list_elem_of_lookup_2, list_elem_of_In, H1 in H2.
  now apply grid_ok_rectangular.
Qed.

Lemma magnitude_row_length n s (u v g : grid) i row :
  rectangular n u = true -> rectangular n v = true ->
  magnitude s u v = Ok g -> g !! i = Some row -> length row = n.
Proof.
  rewrite !rectangular_Forall, !Forall_forall. intros Hu Hv.
  unfold magnitude, grid_add.
  destruct (same_shape _ _); simpl; [|discriminate].
  intros [= <-]. unfold grid_map.
  rewrite !map_lookup, lookup_zip_with, !map_lookup.
  destruct (u !! i) as [ru|] eqn:Eu; simpl; [|discriminate].
  destruct (v !! i) as [rv|] eqn:Ev; simpl; [|discriminate].
  intros [= <-].
  rewrite !length_map, length_zip_with, !length_map.
  apply list_elem_of_lookup_2, Hu in Eu.
  apply list_elem_of_lookup_2, Hv in Ev. lia.
Qed.

Lemma stored_cell i0 n (g : grid) i j :
  (i0 <= n)%nat -> (j < n)%nat ->
  (forall row, g !! i = Some row -> length row = n) ->
  cell (map (rotate i0) g) i j = cell g i ((j + i0) mod n)%nat.
Proof.
  intros Hi Hj Hlen. unfold cell. rewrite map_lookup.
  destruct (g !! i) as [row|]; simpl; [|reflexivity].
  specialize (Hlen row eq_refl). subst n. now apply rotate_lookup.
Qed.

(** ** The factor that calc_windspeed applies *)

(** C3.  The default factor is 3.5 at level 250 and 7.5 at every other
    level.  [calc_windspeed] uses it when the caller leaves the sensitivity
    out or passes a zero, and uses the caller's value when that is not
    zero; so a call at level 250 without a sensitivity is the call with
    sensitivity 3.5.  In the grid that a successful call stores, which is
    the magnitude grid with its rows rotated, every cell of the magnitude
    grid is the factor times the square root of u*u + v*v, and the factor
    is the caller's value when that is not zero, and otherwise 3.5 at level
    250 and 7.5 at any other level. *)
Theorem default_sensitivity_applied :
  default_sensitivity 250 = 3.5%float /\
  default_sensitivity 500 = 7.5%float /\
  default_sensitivity 1000 = 7.5%float /\
  (forall level, level <> 250 -> default_sensitivity level = 7.5%float) /\
  (forall level, set_sensitivity level (default 0%float None)
                 = default_sensitivity level) /\
  (forall level s, (s =? 0)%float = true ->
                   set_sensitivity level s = default_sensitivity level) /\
  (forall level s, (s =? 0)%float = false -> set_sensitivity level s = s) /\
  (forall self idx level,
     calc_windspeed self idx level None
     = calc_windspeed self idx level (Some (default_sensitivity level))) /\
  (forall self idx level s, (s =? 0)%float = true ->
     calc_windspeed self idx level (Some s)
     = calc_windspeed self idx level None) /\
  (forall self idx,
     calc_windspeed self idx 250 None
     = calc_windspeed self idx 250 (Some 3.5%float)) /\
  (forall self idx level s,
     fst (calc_windspeed self idx level s) = Ok tt ->
     exists levindex u v g,
       find_level (ds_level (data self)) level = Ok levindex /\
       field_at (ds_u (data self)) idx levindex = Ok u /\
       field_at (ds_v (data self)) idx levindex = Ok v /\
       windspeed (snd (calc_windspeed self idx level s))
       = Some (map (rotate (cut_index 180 (ds_longitude (data self)))) g) /\
       forall i j,
         cell g i j
         = (a ← cell u i j; b ← cell v i j;
            Some ((match s with
                   | Some x =>
                       if (x =? 0)%float
                       then (if (level =? 250)%Z then 3.5 else 7.5)
                       else x
                   | None => if (level =? 250)%Z then 3.5 else 7.5
                   end) * sqrt (a * a + b * b))%float)).
Proof.
  assert (Hnone : forall self idx level,
     calc_windspeed self idx level None
     = calc_windspeed self idx level (Some (default_sensitivity level))).
  { intros self idx level. unfold calc_windspeed, calc_windspeed_values.
    destruct (find_level (ds_level (data self)) level) as [i|e]; simpl;
      [|reflexivity].
    rewrite (calc_windspeed_at_set_sensitivity _ _ _ 0%float).
    rewrite (set_sensitivity_zero level 0%float eq_refl). reflexivity. }
  repeat split; try reflexivity.
  - intros level Hne. unfold default_sensitivity.
    destruct (Z.eqb_spec level 250); [contradiction | reflexivity].
  - intros level s Hs. now apply set_sensitivity_zero.
  - intros level s Hs. now apply set_sensitivity_nonzero.
  - exact Hnone.
  - intros self idx level s Hs. rewrite Hnone.
    unfold calc_windspeed, calc_windspeed_values.
    destruct (find_level (ds_level (data self)) level) as [i|e]; simpl;
      [|reflexivity].
    rewrite (calc_windspeed_at_set_sensitivity _ _ _ s).
    rewrite (set_sensitivity_zero level s Hs). reflexivity.
  - intros self idx level s. unfold calc_windspeed.
    destruct (calc_windspeed_values (data self) idx level s)
      as [[[lon' lat'] w']|e] eqn:Hcalc; [|discriminate].
    intros _.
    apply calc_windspeed_values_Ok in Hcalc
      as (levindex & u & v & g & Hlev & Hu & Hv & Hg & -> & _ & _).
    exists levindex, u, v, g. repeat split; trivial.
    intros i j. rewrite (magnitude_cell _ _ _ _ i j Hg).
    unfold windspeed_cell, square, set_sensitivity, default_sensitivity.
    destruct s as [x|]; reflexivity.
Qed.

Lemma default_sensitivity_applied_witness :
  exists levindex u v g,
    find_level (ds_level example_dataset) 250 = Ok levindex /\
    field_at (ds_u example_dataset) 0 levindex = Ok u /\
    field_at (ds_v example_dataset) 0 levindex = Ok v /\
    windspeed (snd (calc_windspeed (ERAJetStreamData_init example_dataset)
                      0 250 (Some 2%float)))
    = Some (map (rotate (cut_index 180 (ds_longitude example_dataset))) g) /\
    forall i j,
      cell g i j
      = (a ← cell u i j; b ← cell v i j;
         Some ((if (2 =? 0)%float
                then (if (250 =? 250)%Z then 3.5 else 7.5)
                else 2) * sqrt (a * a + b * b))%float).
Proof.
  pose proof default_sensitivity_applied as H.
  do 10 apply proj2 in H.
  apply (H (ERAJetStreamData_init example_dataset) 0%nat 250 (Some 2%float)).
  vm_compute. reflexivity.
Defined.

(** On the sample: the caller's factor 2, the default at level 250 and the
    default at level 1000. *)
Example calc_windspeed_caller_factor :
  windspeed (snd (calc_windspeed (ERAJetStreamData_init example_dataset)
                    0 250 (Some 2%float)))
  = Some [[20; 0; 10; 0]; [0; 26; 0; 0]]%float.
Proof. vm_compute. reflexivity. Qed.

Example calc_windspeed_default_factor_250 :
  windspeed (snd (calc_windspeed (ERAJetStreamData_init example_dataset)
                    0 250 None))
  = Some [[35; 0; 17.5; 0]; [0; 45.5; 0; 0]]%float.
Proof. vm_compute. reflexivity. Qed.

Example calc_windspeed_default_factor_1000 :
  (g ← windspeed (snd (calc_windspeed (ERAJetStreamData_init example_dataset)
                         0 1000 None));
   cell g 0 1)
  = Some 7.5%float.
Proof. vm_compute. reflexivity. Qed.

(** ** The wind-speed grid *)

Lemma stored_windspeed_cells (d : Dataset) (idx : nat) (level : Z) (s : float)
    (lon' lat' : list Q) (w' : grid) :
  (0 <? s)%float = true ->
  well_shaped d = true ->
  calc_windspeed_values d idx level (Some s) = Ok (lon', lat', w') ->
  exists levindex u v g i0,
    find_level (ds_level d) level = Ok levindex /\
    field_at (ds_u d) idx levindex = Ok u /\
    field_at (ds_v d) idx levindex = Ok v /\
    magnitude s u v = Ok g /\
    (forall i j,
       cell g i j
       = (a ← cell u i j; b ← cell v i j;
          Some (s * sqrt (a * a + b * b))%float)) /\
    i0 = cut_index 180 (ds_longitude d) /\
    (forall i j, (j < length (ds_longitude d))%nat ->
       cell w' i j = cell g i ((j + i0) mod length (ds_longitude d))%nat) /\
    (forall i j c, cell w' i j = Some c ->
       (c <? 0)%float = false /\
       (is_nan c = true \/ (0 <=? c)%float = true)) /\
    ((s <? infinity)%float = true ->
     forall i j a b,
       (j < length (ds_longitude d))%nat ->
       cell u i ((j + i0) mod length (ds_longitude d))%nat = Some a ->
       cell v i ((j + i0) mod length (ds_longitude d))%nat = Some b ->
       is_nan a = false -> is_nan b = false ->
       exists c, cell w' i j = Some c /\ (0 <=? c)%float = true).
Proof.
  intros Hs Hshape Hcalc.
  apply andb_true_iff in Hshape as [Hsu Hsv].
  apply calc_windspeed_values_Ok in Hcalc
    as (levindex & u & v & g & Hl & Hu & Hv & Hg & -> & -> & ->).
  simpl in Hg. rewrite (set_sensitivity_nonzero _ _ (positive_nonzero s Hs)) in Hg.
  pose proof (cut_index_le 180 (ds_longitude d)) as Hle.
  assert (Hrows : forall i row, g !! i = Some row ->
                                length row = length (ds_longitude d)).
  { intros i row.
    apply (magnitude_row_length _ s u v g i row
             (field_at_rectangular _ _ _ _ _ Hsu Hu)
             (field_at_rectangular _ _ _ _ _ Hsv Hv) Hg). }
  assert (Hstored : forall i j, (j < length (ds_longitude d))%nat ->
    cell (map (rotate (cut_index 180 (ds_longitude d))) g) i j
    = cell g i ((j + cut_index 180 (ds_longitude d))
                `mod` length (ds_longitude d))%nat).
  { intros i j Hj.
    apply (stored_cell _ (length (ds_longitude d)));
      [exact Hle | exact Hj | apply Hrows]. }
  assert (Hsign : forall i j c,
    cell (map (rotate (cut_index 180 (ds_longitude d))) g) i j = Some c ->
    (c <? 0)%float = false /\ (is_nan c = true \/ (0 <=? c)%float = true)).
  { intros i j c Hc. apply rotated_cell in Hc as [j' Hc].
    rewrite (magnitude_cell s u v g i j' Hg) in Hc.
    destruct (cell u i j') as [a|]; simpl in Hc; [|discriminate].
    destruct (cell v i j') as [b|]; simpl in Hc; [|discriminate].
    injection Hc as <-.
    apply signed_false_nonneg, windspeed_cell_signed, positive_spec, Hs. }
  exists levindex, u, v, g, (cut_index 180 (ds_longitude d)).
  split; [exact Hl|]. split; [exact Hu|]. split; [exact Hv|].
  split; [exact Hg|].
  split; [intros i j; apply (magnitude_cell s u v g i j Hg)|].
  split; [reflexivity|]. split; [exact Hstored|]. split; [exact Hsign|].
  - intros Hfin i j a b Hj Ha Hb Hna Hnb.
    exists (windspeed_cell s a b). split.
    + rewrite Hstored by assumption.
      rewrite (magnitude_cell s u v g _ _ Hg), Ha, Hb. reflexivity.
    + apply signed_false_not_nan_nonneg.
      * apply windspeed_cell_signed, positive_spec, Hs.
      * now apply windspeed_cell_not_nan.
Qed.

(** C1 (as amended).  On a well-shaped dataset, for a time index of the
    time axis, a level of the level axis and a positive sensitivity [s],
    [calc_windspeed] succeeds, and:
    - every cell of the grid of lines 121-123 is
      [s * sqrt (u * u + v * v)] of the cells of [u] and [v] at the same
      row and column, in binary64 arithmetic;
    - the stored grid is that grid with its columns rotated by the cut of
      the longitude axis: stored column [j] is source column
      [(j + i0) mod n], the column whose longitude is stored at [j];
    - no stored cell is below zero: each is NaN or at least zero, and it is
      at least zero when the sensitivity is finite and neither input cell
      is NaN. *)
Theorem windspeed_cells (d : Dataset) (idx : nat) (level : Z) (s : float) :
  (0 <? s)%float = true ->
  well_shaped d = true ->
  (idx < length (ds_time d))%nat ->
  level ∈ ds_level d ->
  exists lon' lat' w',
    calc_windspeed_values d idx level (Some s) = Ok (lon', lat', w') /\
    exists levindex u v g i0,
      find_level (ds_level d) level = Ok levindex /\
      field_at (ds_u d) idx levindex = Ok u /\
      field_at (ds_v d) idx levindex = Ok v /\
      magnitude s u v = Ok g /\
      (forall i j,
         cell g i j
         = (a ← cell u i j; b ← cell v i j;
            Some (s * sqrt (a * a + b * b))%float)) /\
      i0 = cut_index 180 (ds_longitude d) /\
      (forall i j, (j < length (ds_longitude d))%nat ->
         cell w' i j = cell g i ((j + i0) mod length (ds_longitude d))%nat) /\
      (forall i j c, cell w' i j = Some c ->
         (c <? 0)%float = false /\
         (is_nan c = true \/ (0 <=? c)%float = true)) /\
      ((s <? infinity)%float = true ->
       forall i j a b,
         (j < length (ds_longitude d))%nat ->
         cell u i ((j + i0) mod length (ds_longitude d))%nat = Some a ->
         cell v i ((j + i0) mod length (ds_longitude d))%nat = Some b ->
         is_nan a = false -> is_nan b = false ->
         exists c, cell w' i j = Some c /\ (0 <=? c)%float = true).
Proof.
  intros Hs Hshape Hidx Hlevel.
  destruct (calc_windspeed_values_total d idx level (Some s)
              Hshape Hidx Hlevel) as [[[lon' lat'] w'] Hcalc].
  exists lon', lat', w'. split; [exact Hcalc|].
  exact (stored_windspeed_cells d idx level s lon' lat' w' Hs Hshape Hcalc).
Qed.

Lemma windspeed_cells_witness :
  exists lon' lat' w',
    calc_windspeed_values example_dataset 0 250 (Some 1%float)
    = Ok (lon', lat', w') /\
    exists levindex u v g i0,
      find_level (ds_level example_dataset) 250 = Ok levindex /\
      field_at (ds_u example_dataset) 0 levindex = Ok u /\
      field_at (ds_v example_dataset) 0 levindex = Ok v /\
      magnitude 1%float u v = Ok g /\
      (forall i j,
         cell g i j
         = (a ← cell u i j; b ← cell v i j;
            Some (1 * sqrt (a * a + b * b))%float)) /\
      i0 = cut_index 180 (ds_longitude example_dataset) /\
      (forall i j, (j < length (ds_longitude example_dataset))%nat ->
         cell w' i j
         = cell g i ((j + i0) mod length (ds_longitude example_dataset))%nat) /\
      (forall i j c, cell w' i j = Some c ->
         (c <? 0)%float = false /\
         (is_nan c = true \/ (0 <=? c)%float = true)) /\
      ((1 <? infinity)%float = true ->
       forall i j a b,
         (j < length (ds_longitude example_dataset))%nat ->
         cell u i ((j + i0) mod length (ds_longitude example_dataset))%nat
         = Some a ->
         cell v i ((j + i0) mod length (ds_longitude example_dataset))%nat
         = Some b ->
         is_nan a = false -> is_nan b = false ->
         exists c, cell w' i j = Some c /\
                   (0 <=? c)%float = true).
Proof.
  apply (windspeed_cells example_dataset 0 250 1%float).
  - reflexivity.
  - reflexivity.
  - simpl. lia.
  - apply list_elem_of_In. simpl. tauto.
Defined.

(** C1, the claim as written fails.  A NaN among the inputs gives a NaN
    cell, which is not at least zero; and read with the same indices on
    the stored grid the equation fails too, the columns having moved with
    their longitudes: stored cell (0, 0) of the sample is 10, the value of
    source column 2, while source column 0 gives 5. *)
Lemma windspeed_nonnegative_counterexample :
  (exists lon' lat' c c',
     calc_windspeed_values nan_dataset 0 250 (Some 1%float)
     = Ok (lon', lat', [[c; c']]) /\
     is_nan c' = true /\ (0 <=? c')%float = false) /\
  (exists lon' lat' w',
     calc_windspeed_values example_dataset 0 250 (Some 1%float)
     = Ok (lon', lat', w') /\
     cell w' 0 0 = Some 10%float /\
     (a ← cell [[3;0;6;0];[0;0;0;5]]%float 0 0;
      b ← cell [[4;0;8;0];[0;0;0;12]]%float 0 0;
      Some (1 * sqrt (a * a + b * b))%float) = Some 5%float).
Proof.
  split.
  - do 4 eexists. split; [vm_compute; reflexivity|]. split; reflexivity.
  - do 3 eexists. split; [vm_compute; reflexivity|]. split; reflexivity.
Qed.

(** C10 (as amended).  A sensitivity that is not zero is the scale
    factor as it stands, whatever its sign: every cell of the grid of
    lines 121-123 is [s * sqrt (u * u + v * v)].  With a negative
    sensitivity the stored grid is, cell by cell, the negation of the grid
    that the factor [- s] gives: no cell is above zero, each is NaN or at
    most zero. *)
Theorem sensitivity_unchecked (d : Dataset) (idx : nat) (level : Z)
    (s : float) (lon' lat' : list Q) (w' : grid) :
  (s =? 0)%float = false ->
  calc_windspeed_values d idx level (Some s) = Ok (lon', lat', w') ->
  exists levindex u v g,
    find_level (ds_level d) level = Ok levindex /\
    field_at (ds_u d) idx levindex = Ok u /\
    field_at (ds_v d) idx levindex = Ok v /\
    magnitude s u v = Ok g /\
    w' = map (rotate (cut_index 180 (ds_longitude d))) g /\
    (forall i j,
       cell g i j
       = (a ← cell u i j; b ← cell v i j;
          Some (s * sqrt (a * a + b * b))%float)) /\
    ((s <? 0)%float = true ->
     (exists w_pos,
        calc_windspeed_values d idx level (Some (- s)%float)
        = Ok (lon', lat', w_pos) /\
        w' = grid_map PrimFloat.opp w_pos) /\
     (forall i j c, cell w' i j = Some c ->
        (0 <? c)%float = false /\
        (is_nan c = true \/ (c <=? 0)%float = true))).
Proof.
  intros Hs Hcalc.
  apply calc_windspeed_values_Ok in Hcalc
    as (levindex & u & v & g & Hl & Hu & Hv & Hg & -> & -> & ->).
  simpl in Hg. rewrite (set_sensitivity_nonzero _ _ Hs) in Hg.
  exists levindex, u, v, g.
  split; [exact Hl|]. split; [exact Hu|]. split; [exact Hv|].
  split; [exact Hg|]. split; [reflexivity|].
  split; [intros i j; apply (magnitude_cell s u v g i j Hg)|].
  intros Hneg. split.
  - exists (map (rotate (cut_index 180 (ds_longitude d)))
              (grid_map PrimFloat.opp g)).
    split.
    + apply (calc_windspeed_values_intro d idx level (Some (- s)%float)
               levindex u v (grid_map PrimFloat.opp g) Hl Hu Hv).
      simpl. rewrite (set_sensitivity_nonzero _ _ (opp_nonzero s Hs)).
      now apply magnitude_opp.
    + unfold grid_map. rewrite !map_map.
      rewrite <- (map_id (map _ g)) at 1. rewrite map_map.
      apply map_ext. intros row. rewrite rotate_map, map_map.
      rewrite <- (map_id (rotate _ row)) at 1.
      apply map_ext. intros c. symmetry. apply opp_involutive.
  - intros i j c Hc. apply rotated_cell in Hc as [j' Hc].
    rewrite (magnitude_cell s u v g i j' Hg) in Hc.
    destruct (cell u i j') as [a|]; simpl in Hc; [|discriminate].
    destruct (cell v i j') as [b|]; simpl in Hc; [|discriminate].
    injection Hc as <-.
    apply signed_true_nonpos, windspeed_cell_signed, negative_spec, Hneg.
Qed.

Lemma sensitivity_unchecked_witness :
  exists levindex u v g,
    find_level (ds_level example_dataset) 250 = Ok levindex /\
    field_at (ds_u example_dataset) 0 levindex = Ok u /\
    field_at (ds_v example_dataset) 0 levindex = Ok v /\
    magnitude (-2)%float u v = Ok g /\
    negative_windspeed
    = map (rotate (cut_index 180 (ds_longitude example_dataset))) g /\
    (forall i j,
       cell g i j
       = (a ← cell u i j; b ← cell v i j;
          Some (-2 * sqrt (a * a + b * b))%float)) /\
    ((-2 <? 0)%float = true ->
     (exists w_pos,
        calc_windspeed_values example_dataset 0 250 (Some (- -2)%float)
        = Ok ([180 - 360; 270 - 360; 0; 90]%Q, [45; 0]%Q, w_pos) /\
        negative_windspeed = grid_map PrimFloat.opp w_pos) /\
     (forall i j c, cell negative_windspeed i j = Some c ->
        (0 <? c)%float = false /\
        (is_nan c = true \/ (c <=? 0)%float = true))).
Proof.
  apply (sensitivity_unchecked example_dataset 0 250 (-2)%float
           [180 - 360; 270 - 360; 0; 90]%Q [45; 0]%Q negative_windspeed).
  - reflexivity.
  - vm_compute. reflexivity.
Defined.

(** C10, the claim as written fails: under a negative sensitivity a cell
    where the wind is calm is a zero, and a cell with a NaN input is NaN;
    neither is below zero. *)
Lemma negative_sensitivity_counterexample :
  (exists lon' lat' w' c,
     calc_windspeed_values example_dataset 0 250 (Some (-2)%float)
     = Ok (lon', lat', w') /\
     cell w' 0 1 = Some c /\ (c <? 0)%float = false /\ (c =? 0)%float = true) /\
  (exists lon' lat' w' c,
     calc_windspeed_values nan_dataset 0 250 (Some (-2)%float)
     = Ok (lon', lat', w') /\
     cell w' 0 1 = Some c /\ (c <? 0)%float = false /\ is_nan c = true).
Proof.
  split.
  - do 4 eexists. split; [vm_compute; reflexivity|].
    split; [reflexivity|]. split; reflexivity.
  - do 4 eexists. split; [vm_compute; reflexivity|].
    split; [reflexivity|]. split; reflexivity.
Qed.

(** * Further properties of the code *)

(** ** The wind speed of a cell *)

Lemma SFadd_comm x y : SF64add x y = SF64add y x.
Proof.
  destruct x as [sx|sx| |sx mx ex], y as [sy|sy| |sy my ey]; simpl; trivial;
    try (destruct sx, sy; reflexivity).
  rewrite (Z.min_comm ey ex). f_equal. apply Z.add_comm.
Qed.

Lemma add_comm (x y : float) : (x + y)%float = (y + x)%float.
Proof. apply Prim2SF_inj. rewrite !add_spec. apply SFadd_comm. Qed.

Lemma SFmul_opp_opp x : SF64mul (SFopp x) (SFopp x) = SF64mul x x.
Proof. destruct x as [s|s| |s m e]; simpl; trivial; now destruct s. Qed.

Lemma square_opp (x : float) : square (- x)%float = square x.
Proof.
  unfold square. apply Prim2SF_inj.
  rewrite !mul_spec, opp_spec. apply SFmul_opp_opp.
Qed.

Lemma windspeed_cell_swap s a b : windspeed_cell s a b = windspeed_cell s b a.
Proof. unfold windspeed_cell. now rewrite add_comm. Qed.

Lemma windspeed_cell_reverse s a b :
  windspeed_cell s (- a)%float (- b)%float = windspeed_cell s a b.
Proof. unfold windspeed_cell. now rewrite !square_opp. Qed.

Lemma SFis_nan_eq x : SFis_nan x = true -> x = S754_nan.
Proof. destruct x; simpl; intros; trivial; discriminate. Qed.

Lemma SFmul_nan_r x : SF64mul x S754_nan = S754_nan.
Proof. now destruct x. Qed.

Lemma SFadd_nan_r x : SF64add x S754_nan = S754_nan.
Proof. now destruct x. Qed.

Lemma windspeed_cell_nan s a b :
  is_nan s = true \/ is_nan a = true \/ is_nan b = true ->
  is_nan (windspeed_cell s a b) = true.
Proof.
  rewrite !is_nan_spec. unfold windspeed_cell, square.
  rewrite mul_spec, sqrt_spec, add_spec, !mul_spec.
  intros [H|[H|H]]; apply SFis_nan_eq in H; rewrite H.
  - reflexivity.
  - simpl. now rewrite SFmul_nan_r.
  - rewrite (SFmul_nan_r S754_nan), SFadd_nan_r. simpl.
    now rewrite SFmul_nan_r.
Qed.

(** ** The magnitude grid *)

Lemma zip_with_comm {A B} (f : A -> A -> B) :
  (forall x y, f x y = f y x) ->
  forall l k, zip_with f l k = zip_with f k l.
Proof.
  intros Hf. induction l as [|x l IH]; intros [|y k]; simpl; trivial.
  now rewrite Hf, IH.
Qed.

Lemma same_shape_comm (a b : grid) : same_shape a b = same_shape b a.
Proof. unfold same_shape. apply bool_decide_ext. split; congruence. Qed.

(** X1.  The wind speed does not tell the components apart: with [u]
    and [v] exchanged, lines 121-123 give the same grid, or the same
    error. *)
Theorem magnitude_swap (s : float) (u v : grid) :
  magnitude s v u = magnitude s u v.
Proof.
  unfold magnitude, grid_add. rewrite same_shape_comm.
  destruct (same_shape _ _); [|reflexivity].
  rewrite (zip_with_comm (zip_with PrimFloat.add)
             (zip_with_comm PrimFloat.add add_comm)).
  reflexivity.
Qed.

(** X2.  The wind speed does not depend on the direction of the wind:
    with both components negated, lines 121-123 give the same grid, or the
    same error; and so with one component negated. *)
Theorem magnitude_reverse (s : float) (u v : grid) :
  magnitude s (grid_map PrimFloat.opp u) (grid_map PrimFloat.opp v)
  = magnitude s u v /\
  magnitude s (grid_map PrimFloat.opp u) v = magnitude s u v /\
  magnitude s u (grid_map PrimFloat.opp v) = magnitude s u v.
Proof.
  assert (Hsq : forall g : grid,
            grid_map square (grid_map PrimFloat.opp g) = grid_map square g).
  { intros g. unfold grid_map. rewrite map_map. apply map_ext. intros row.
    rewrite map_map. apply map_ext. intros x. apply square_opp. }
  unfold magnitude. rewrite !Hsq. repeat split.
Qed.

(** X3.  Nothing is masked: where a cell of [u] or of [v] is NaN, or when
    the sensitivity is NaN, the cell of the grid of lines 121-123 is NaN. *)
Theorem magnitude_nan (s : float) (u v g : grid) (i j : nat) (a b : float) :
  magnitude s u v = Ok g ->
  cell u i j = Some a -> cell v i j = Some b ->
  is_nan s = true \/ is_nan a = true \/ is_nan b = true ->
  exists c, cell g i j = Some c /\ is_nan c = true.
Proof.
  intros Hg Ha Hb Hnan. exists (windspeed_cell s a b). split.
  - rewrite (magnitude_cell s u v g i j Hg), Ha, Hb. reflexivity.
  - now apply windspeed_cell_nan.
Qed.

Lemma magnitude_nan_witness :
  exists c, cell [[nan; 0]]%float 0 0 = Some c /\ is_nan c = true.
Proof.
  apply (magnitude_nan 1%float [[nan; 0]]%float [[1; 0]]%float
           [[nan; 0]]%float 0 0 nan 1%float).
  - reflexivity.
  - reflexivity.
  - reflexivity.
  - right. left. reflexivity.
Defined.

Lemma same_shape_square (u v : grid) :
  same_shape (grid_map square u) (grid_map square v) = same_shape u v.
Proof.
  unfold same_shape, grid_map. apply bool_decide_ext.
  assert (Hsq : forall g : grid, length <$> map (map square) g = length <$> g).
  { intros g. change (length <$> (map square <$> g) = length <$> g).
    rewrite <- list_fmap_compose.
    apply list_fmap_ext. intros k row _. simpl. apply length_map. }
  now rewrite !Hsq.
Qed.

(** X4.  For fields of one shape, lines 121-123 give a grid of that shape:
    as many rows, each as long as the row of [u], with a cell exactly
    where [u] has one. *)
Theorem magnitude_shape (s : float) (u v : grid) :
  same_shape u v = true ->
  exists g, magnitude s u v = Ok g /\
            length g = length u /\
            length <$> g = length <$> u /\
            forall i j, is_Some (cell g i j) <-> is_Some (cell u i j).
Proof.
  intros Hshape. unfold magnitude, grid_add.
  rewrite same_shape_square, Hshape. simpl. eexists. split; [reflexivity|].
  pose proof Hshape as Hsame.
  apply bool_decide_eq_true in Hshape.
  assert (Hlen : length <$>
            grid_map (PrimFloat.mul s)
              (grid_map PrimFloat.sqrt
                 (zip_with (zip_with PrimFloat.add) (grid_map square u)
                    (grid_map square v)))
            = length <$> u).
  { unfold grid_map. clear Hsame. revert v Hshape.
    induction u as [|ru u IH]; intros [|rv v] Hs; try discriminate;
      [reflexivity|].
    csimpl in *. injection Hs as Hr Hs. f_equal; [|now apply IH].
    rewrite !length_map, length_zip_with, !length_map. lia. }
  split; [|split; [exact Hlen|]].
  - apply (f_equal length) in Hlen. now rewrite !length_fmap in Hlen.
  - intros i j.
    rewrite (magnitude_cell s u v _ i j).
    2:{ unfold magnitude, grid_add.
        rewrite same_shape_square, Hsame. reflexivity. }
    assert (Hv : is_Some (cell u i j) -> is_Some (cell v i j)).
    { unfold cell. intros [a Ha].
      destruct (u !! i) as [ru|] eqn:Eu; simpl in Ha; [|discriminate].
      assert (Hrow : (length <$> v) !! i = Some (length ru)).
      { rewrite <- Hshape, list_lookup_fmap, Eu. reflexivity. }
      rewrite list_lookup_fmap in Hrow.
      destruct (v !! i) as [rv|]; simpl in Hrow; [|discriminate].
      injection Hrow as Hrow. simpl.
      apply lookup_lt_is_Some. rewrite Hrow.
      now apply lookup_lt_Some in Ha. }
    split.
    + intros [c Hc]. destruct (cell u i j); [eauto | discriminate].
    + intros Hu. destruct (Hv Hu) as [b Hb]. destruct Hu as [a Ha].
      rewrite Ha, Hb. simpl. eauto.
Qed.

Lemma magnitude_shape_witness :
  exists g, magnitude 1%float [[3; 0]; [6; 0]]%float [[4; 0]; [8; 0]]%float
            = Ok g /\
            length g = length [[3; 0]; [6; 0]]%float /\
            length <$> g = length <$> [[3; 0]; [6; 0]]%float /\
            forall i j, is_Some (cell g i j)
                        <-> is_Some (cell [[3; 0]; [6; 0]]%float i j).
Proof.
  apply (magnitude_shape 1%float [[3; 0]; [6; 0]]%float
           [[4; 0]; [8; 0]]%float).
  reflexivity.
Defined.

(** ** Errors and repeated calls of calc_windspeed *)

Lemma set_sensitivity_not_zero level s :
  (set_sensitivity level s =? 0)%float = false.
Proof.
  unfold set_sensitivity. destruct (s =? 0)%float eqn:E; [|exact E].
  apply default_sensitivity_nonzero.
Qed.

Lemma field_at_out_of_range (field : list (list grid)) idx levindex :
  (length field <= idx)%nat ->
  field_at field idx levindex = Raise (IndexError "index out of bounds").
Proof.
  intros H. unfold field_at. now rewrite (lookup_ge_None_2 field idx H).
Qed.

(** X5.  The level is looked up before anything is indexed: for a level
    the axis does not have, [calc_windspeed] raises the [ValueError] of
    line 109 whatever the time index and the sensitivity are; for a level
    it has and a time index past the field [u], it raises [IndexError].
    Either way the object is left as it was. *)
Theorem calc_windspeed_errors (self : ERAJetStreamData) (idx : nat)
    (level : Z) (sensitivity : option float) :
  (level ∉ ds_level (data self) ->
   calc_windspeed self idx level sensitivity
   = (Raise (ValueError ("No " +:+ fmt_d level
                         +:+ " hPa level (maybe check with -L?)")), self)) /\
  (level ∈ ds_level (data self) ->
   (length (ds_u (data self)) <= idx)%nat ->
   exists msg, calc_windspeed self idx level sensitivity
               = (Raise (IndexError msg), self)).
Proof.
  unfold calc_windspeed, calc_windspeed_values. split.
  - intros Hnin. now rewrite (find_level_absent _ _ Hnin).
  - intros Hin Hidx. destruct (find_level_present _ _ Hin) as [i ->]. simpl.
    unfold calc_windspeed_at. rewrite (field_at_out_of_range _ _ _ Hidx).
    eexists. reflexivity.
Qed.

Lemma calc_windspeed_errors_witness :
  (exists msg,
     calc_windspeed (ERAJetStreamData_init example_dataset) 7 500 None
     = (Raise (IndexError msg), ERAJetStreamData_init example_dataset)) /\
  calc_windspeed (ERAJetStreamData_init example_dataset) 7 300 None
  = (Raise (ValueError "No 300 hPa level (maybe check with -L?)"),
     ERAJetStreamData_init example_dataset).
Proof.
  split.
  - apply (proj2 (calc_windspeed_errors
                    (ERAJetStreamData_init example_dataset) 7 500 None)).
    + apply list_elem_of_In. simpl. tauto.
    + simpl. lia.
  - apply (proj1 (calc_windspeed_errors
                    (ERAJetStreamData_init example_dataset) 7 300 None)).
    rewrite list_elem_of_In. simpl. intros [H|[H|[H|[]]]]; discriminate.
Defined.

Lemma calc_windspeed_data self idx level s :
  data (snd (calc_windspeed self idx level s)) = data self.
Proof.
  unfold calc_windspeed.
  destruct (calc_windspeed_values (data self) idx level s)
    as [[[lon' lat'] w']|e]; reflexivity.
Qed.

(** X6.  What a call stores depends on the dataset and on its own
    arguments only: after any earlier call, a call returns what it returns
    on the fresh object and, when it succeeds, leaves the same attributes.
    Nothing of an earlier timestep is left over. *)
Theorem calc_windspeed_overrides (self : ERAJetStreamData)
    (idx idx' : nat) (level level' : Z) (s s' : option float) :
  let earlier := snd (calc_windspeed self idx level s) in
  fst (calc_windspeed earlier idx' level' s')
  = fst (calc_windspeed self idx' level' s') /\
  match fst (calc_windspeed self idx' level' s') with
  | Ok _ => snd (calc_windspeed earlier idx' level' s')
            = snd (calc_windspeed self idx' level' s')
  | Raise _ => snd (calc_windspeed earlier idx' level' s') = earlier
  end.
Proof.
  cbv zeta.
  pose proof (calc_windspeed_data self idx level s) as Hdata.
  destruct (calc_windspeed self idx level s) as [r earlier]. simpl in *.
  unfold calc_windspeed. rewrite Hdata.
  destruct (calc_windspeed_values (data self) idx' level' s')
    as [[[lon' lat'] w']|e]; simpl; split; reflexivity.
Qed.

(** The factor that scales the grid is never zero: a zero or an
    omitted sensitivity is replaced by the default, which is 3.5 or 7.5,
    and any other value is kept. *)
Theorem scale_factor_not_zero (level : Z) (sensitivity : option float) :
  (set_sensitivity level (default 0%float sensitivity) =? 0)%float = false /\
  (set_sensitivity level (default 0%float sensitivity) = 3.5%float \/
   set_sensitivity level (default 0%float sensitivity) = 7.5%float \/
   Some (set_sensitivity level (default 0%float sensitivity)) = sensitivity).
Proof.
  split; [apply set_sensitivity_not_zero|].
  unfold set_sensitivity, default_sensitivity.
  destruct sensitivity as [s|]; simpl.
  - destruct (s =? 0)%float; [|auto].
    destruct (level =? 250); auto.
  - destruct (level =? 250); auto.
Qed.

(** ** The output of a run *)

Lemma calc_windspeed_expected num2date args box d i t JSdata :
  data JSdata = d ->
  match calc_windspeed JSdata i (level args) None with
  | (Ok _, J) =>
      data J = d /\
      (exists v, calc_windspeed_values d i (level args) None = Ok v) /\
      expected_map num2date args box d i t
      = Some (create_map J (level args)
                (strftime_Ymd (num2date t (ds_time_units d)
                                 (ds_time_calendar d))) box)
  | (Raise e, _) =>
      calc_windspeed_values d i (level args) None = Raise e /\
      expected_map num2date args box d i t = None
  end.
Proof.
  intros <-. unfold calc_windspeed, expected_map.
  destruct (calc_windspeed_values (data JSdata) i (level args) None)
    as [[[lon' lat'] g]|e]; [|split; reflexivity].
  split; [reflexivity|]. split; [eauto | reflexivity].
Qed.

Lemma timestep_loop_trace {FS : Type} (os : OS FS) num2date args box d times :
  forall i JSdata (w : world FS) o w',
  data JSdata = d ->
  timestep_loop os num2date args box (ds_time_units d) (ds_time_calendar d)
    i times JSdata w = (o, w') ->
  exists n rest,
    (n <= length times)%nat /\
    match o with
    | Completed => n = length times /\ rest = []
    | SysExit _ => False
    | Uncaught e =>
        (n < length times)%nat /\
        ((calc_windspeed_values d (i + n) (level args) None = Raise e /\
          rest = []) \/
         (exists t m s,
            times !! n = Some t /\
            expected_map num2date args box d (i + n) t = Some m /\
            savefig os m (expected_name num2date args d t) (dpi args) s
            = Raise e /\
            rest = [EvRender m]))
    end /\
    (forall k, (k < n)%nat ->
       exists v, calc_windspeed_values d (i + k) (level args) None = Ok v) /\
    trace w' = trace w
               ++ concat (imap (fun k t =>
                                  expected_block num2date args box d (i + k) t)
                               (take n times))
               ++ rest.
Proof.
  induction times as [|t rest IH]; intros i JSdata w o w' Hdata H;
    simpl in H.
  - inversion H; subst. exists 0%nat, []. simpl. rewrite app_nil_r.
    repeat split; trivial. intros k Hk. lia.
  - pose proof (timestep_cases os num2date args box (ds_time_units d)
                  (ds_time_calendar d) i t JSdata w) as Hstep.
    pose proof (calc_windspeed_expected num2date args box d i t JSdata Hdata)
      as Hcalc.
    destruct (calc_windspeed JSdata i (level args) None) as [[[]|e] J].
    + destruct Hcalc as (Hd1 & Hok & Hmap). cbv zeta in Hstep.
      destruct (savefig os _ _ (dpi args) (fs w)) as [fs'|e] eqn:Hsave;
        rewrite Hstep in H.
      * apply (IH _ _ _ _ _ Hd1) in H
          as (n & rest' & Hn & Ho & Hoks & Htr').
        exists (S n), rest'. split; [simpl; lia|]. split; [|split].
        -- destruct o as [| |e]; simpl; [|assumption|].
           ++ destruct Ho as [-> ->]. split; reflexivity.
           ++ destruct Ho as [Hlt He]. split; [lia|].
              now replace (i + S n)%nat with (S i + n)%nat by lia.
        -- intros [|k] Hk.
           ++ now rewrite Nat.add_0_r.
           ++ replace (i + S k)%nat with (S i + k)%nat by lia.
              apply Hoks. lia.
        -- rewrite Htr'. simpl. rewrite Nat.add_0_r.
           unfold expected_block at 2. rewrite Hmap.
           rewrite <- !app_assoc. simpl. do 5 f_equal. do 2 f_equal.
           apply imap_ext. intros k t' _. simpl.
           now replace (i + S k)%nat with (S (i + k))%nat by lia.
      * inversion H; subst. eexists 0%nat, [_]. simpl.
        rewrite Nat.add_0_r. split; [lia|]. split; [|split].
        -- split; [lia|]. right. eexists t, _, _.
           split; [reflexivity|]. split; [exact Hmap|].
           split; [exact Hsave | reflexivity].
        -- intros k Hk. lia.
        -- reflexivity.
    + destruct Hcalc as [Hraise _]. rewrite Hstep in H.
      inversion H; subst. exists 0%nat, []. simpl. rewrite app_nil_r.
      rewrite Nat.add_0_r. repeat split; trivial; try lia; auto.
Qed.

(** X7.  The whole output of a run that reaches the loop (the area read,
    the data file open, no listing asked for, the output directory in
    place: it was there, or nothing was at the path and [os.mkdir] has made
    it).  For the time indices 0, 1, ... in turn, the map of that index is
    rendered from the wind speed of that index at the requested level under
    the default sensitivity (with the bounds of the area and the title of
    [create_map]), saved and its name printed.  The run completes after
    the last index; or it dies of the exception of the first index whose
    [calc_windspeed] raises, every earlier index having succeeded; or it
    dies of what a save raised, the map of that index rendered and not
    saved. *)
Theorem run_output {FS : Type} (os : OS FS)
    (parse_area : string -> result bounds)
    (open_dataset : string -> result Dataset)
    (num2date : Z -> string -> string -> datetime)
    (args : Namespace) (w w0 : world FS) (box : bounds) (d : Dataset) :
  parse_area (area args) = Ok box ->
  open_dataset (datafile args) = Ok d ->
  listlevels args = false ->
  prepared os (outdir args) w w0 ->
  let r := main os parse_area open_dataset num2date args w in
  exists n rest,
    (n <= length (ds_time d))%nat /\
    match fst r with
    | Completed => n = length (ds_time d) /\ rest = []
    | SysExit _ => False
    | Uncaught e =>
        (n < length (ds_time d))%nat /\
        ((calc_windspeed_values d n (level args) None = Raise e /\
          rest = []) \/
         (exists t m s,
            ds_time d !! n = Some t /\
            expected_map num2date args box d n t = Some m /\
            savefig os m (expected_name num2date args d t) (dpi args) s
            = Raise e /\
            rest = [EvRender m]))
    end /\
    (forall k, (k < n)%nat ->
       exists v, calc_windspeed_values d k (level args) None = Ok v) /\
    trace (snd r)
    = trace w
      ++ (if path_exists os (fs w) (outdir args) then []
          else [EvMkdir (outdir args)])
      ++ concat (imap (expected_block num2date args box d)
                      (take n (ds_time d)))
      ++ rest.
Proof.
  intros Hparse Hopen Hlist Hprep. cbv zeta.
  rewrite (main_run os _ _ _ _ w w0 box d Hparse Hopen Hlist Hprep).
  destruct (timestep_loop os num2date args box (ds_time_units d)
              (ds_time_calendar d) 0 (ds_time d) (ERAJetStreamData_init d) w0)
    as [o w'] eqn:Hloop.
  apply (timestep_loop_trace os num2date args box d) in Hloop
    as (n & rest & Hn & Ho & Hoks & Htr); [|reflexivity].
  exists n, rest. simpl. split; [exact Hn|]. split; [exact Ho|].
  split; [exact Hoks|].
  rewrite Htr.
  destruct Hprep as [(He & _ & ->)|(He & fs' & _ & ->)]; rewrite He; simpl;
    rewrite <- ?app_assoc; reflexivity.
Qed.

Lemma run_output_witness :
  let r := main sample_os example_parse_area example_open_dataset
             example_num2date example_args empty_world in
  exists n rest,
    (n <= length (ds_time example_dataset))%nat /\
    match fst r with
    | Completed => n = length (ds_time example_dataset) /\ rest = []
    | SysExit _ => False
    | Uncaught e =>
        (n < length (ds_time example_dataset))%nat /\
        ((calc_windspeed_values example_dataset n (level example_args) None
          = Raise e /\
          rest = []) \/
         (exists t m s,
            ds_time example_dataset !! n = Some t /\
            expected_map example_num2date example_args example_box
              example_dataset n t = Some m /\
            savefig sample_os m
              (expected_name example_num2date example_args example_dataset t)
              (dpi example_args) s
            = Raise e /\
            rest = [EvRender m]))
    end /\
    (forall k, (k < n)%nat ->
       exists v, calc_windspeed_values example_dataset k
                   (level example_args) None = Ok v) /\
    trace (snd r)
    = trace empty_world
      ++ (if path_exists sample_os (fs empty_world) (outdir example_args)
          then [] else [EvMkdir (outdir example_args)])
      ++ concat (imap (expected_block example_num2date example_args
                         example_box example_dataset)
                      (take n (ds_time example_dataset)))
      ++ rest.
Proof.
  apply (run_output sample_os example_parse_area example_open_dataset
           example_num2date example_args empty_world
           {| fs := {[ ["outdir"] := Dir ]}; trace := [EvMkdir "outdir"] |}
           example_box example_dataset); try reflexivity.
  right. split; [reflexivity|].
  exists {[ ["outdir"] := Dir ]}. split; reflexivity.
Defined.

(** X8.  The value of [--threshold] changes nothing: the driver never
    hands it to [calc_windspeed], so two runs that differ in the threshold
    only end the same way, with the same output and the same files. *)
Theorem threshold_ignored {FS : Type} (os : OS FS)
    (parse_area : string -> result bounds)
    (open_dataset : string -> result Dataset)
    (num2date : Z -> string -> string -> datetime)
    (args : Namespace) (t : float) (w : world FS) :
  main os parse_area open_dataset num2date (with_threshold t args) w
  = main os parse_area open_dataset num2date args w.
Proof.
  assert (Hloop : forall box timeunits cal times i JSdata w0,
    timestep_loop os num2date (with_threshold t args) box timeunits cal
      i times JSdata w0
    = timestep_loop os num2date args box timeunits cal i times JSdata w0).
  { intros box timeunits cal times.
    induction times as [|t0 rest IH]; intros i JSdata w0; [reflexivity|].
    simpl. change (timestep os num2date (with_threshold t args) box timeunits
                     cal i t0 JSdata w0)
             with (timestep os num2date args box timeunits cal i t0 JSdata w0).
    destruct (timestep os num2date args box timeunits cal i t0 JSdata w0)
      as [[J1|e] w1]; [apply IH | reflexivity]. }
  unfold main. simpl.
  destruct (parse_area (area args)) as [box|e]; [|reflexivity].
  destruct (open_dataset (datafile args)) as [d|e]; [|reflexivity].
  destruct (mkdir os (outdir args) (fs w)); rewrite ?Hloop; reflexivity.
Qed.

(** X9.  A level that the dataset does not have stops the run at the
    first timestep with the [ValueError] of [calc_windspeed], exit code 1:
    nothing is rendered, saved or printed, yet the output directory has
    been made by then if it was not there. *)
Theorem unknown_level_run {FS : Type} (os : OS FS)
    (parse_area : string -> result bounds)
    (open_dataset : string -> result Dataset)
    (num2date : Z -> string -> string -> datetime)
    (args : Namespace) (w w0 : world FS) (box : bounds) (d : Dataset) :
  parse_area (area args) = Ok box ->
  open_dataset (datafile args) = Ok d ->
  listlevels args = false ->
  prepared os (outdir args) w w0 ->
  ds_time d <> [] ->
  level args ∉ ds_level d ->
  let r := main os parse_area open_dataset num2date args w in
  fst r = Uncaught (ValueError ("No " +:+ fmt_d (level args)
                                +:+ " hPa level (maybe check with -L?)")) /\
  exit_code (fst r) = 1 /\
  snd r = w0 /\
  trace w0 = trace w ++ (if path_exists os (fs w) (outdir args) then []
                         else [EvMkdir (outdir args)]).
Proof.
  intros Hparse Hopen Hlist Hprep Htimes Hlevel. cbv zeta.
  rewrite (main_run os _ _ _ _ w w0 box d Hparse Hopen Hlist Hprep).
  split; [|split; [|split]].
  - destruct (ds_time d) as [|t rest]; [contradiction|].
    simpl. unfold timestep, calc_windspeed, calc_windspeed_values. simpl.
    rewrite (find_level_absent _ _ Hlevel). reflexivity.
  - destruct (ds_time d) as [|t rest]; [contradiction|].
    simpl. unfold timestep, calc_windspeed, calc_windspeed_values. simpl.
    rewrite (find_level_absent _ _ Hlevel). reflexivity.
  - destruct (ds_time d) as [|t rest]; [contradiction|].
    simpl. unfold timestep, calc_windspeed, calc_windspeed_values. simpl.
    rewrite (find_level_absent _ _ Hlevel). reflexivity.
  - destruct Hprep as [(He & _ & ->)|(He & fs' & _ & ->)]; rewrite He; simpl;
      [now rewrite app_nil_r | reflexivity].
Qed.

Lemma unknown_level_run_witness :
  let r := main sample_os example_parse_area example_open_dataset
             example_num2date unknown_level_args empty_world in
  fst r = Uncaught (ValueError "No 300 hPa level (maybe check with -L?)") /\
  exit_code (fst r) = 1 /\
  snd r = {| fs := {[ ["outdir"] := Dir ]}; trace := [EvMkdir "outdir"] |} /\
  [EvMkdir "outdir"]
  = trace empty_world
    ++ (if path_exists sample_os (fs empty_world) (outdir unknown_level_args)
        then [] else [EvMkdir (outdir unknown_level_args)]).
Proof.
  apply (unknown_level_run sample_os example_parse_area example_open_dataset
           example_num2date unknown_level_args empty_world
           {| fs := {[ ["outdir"] := Dir ]}; trace := [EvMkdir "outdir"] |}
           example_box example_dataset); try reflexivity; try discriminate.
  - right. split; [reflexivity|].
    exists {[ ["outdir"] := Dir ]}. split; reflexivity.
  - rewrite list_elem_of_In. simpl. intros [H|[H|[H|[]]]]; discriminate.
Defined.

(** X10.  With an empty time axis the run completes with exit code 0
    and produces no image, whatever the requested level is: the level is
    only looked up inside the loop.  All it has done is to make the output
    directory if that was not there. *)
Theorem empty_time_axis_run {FS : Type} (os : OS FS)
    (parse_area : string -> result bounds)
    (open_dataset : string -> result Dataset)
    (num2date : Z -> string -> string -> datetime)
    (args : Namespace) (w w0 : world FS) (box : bounds) (d : Dataset) :
  parse_area (area args) = Ok box ->
  open_dataset (datafile args) = Ok d ->
  listlevels args = false ->
  prepared os (outdir args) w w0 ->
  ds_time d = [] ->
  let r := main os parse_area open_dataset num2date args w in
  fst r = Completed /\ exit_code (fst r) = 0 /\
  snd r = w0 /\
  trace w0 = trace w ++ (if path_exists os (fs w) (outdir args) then []
                         else [EvMkdir (outdir args)]).
Proof.
  intros Hparse Hopen Hlist Hprep Htimes. cbv zeta.
  rewrite (main_run os _ _ _ _ w w0 box d Hparse Hopen Hlist Hprep), Htimes.
  repeat split.
  destruct Hprep as [(He & _ & ->)|(He & fs' & _ & ->)]; rewrite He; simpl;
    [now rewrite app_nil_r | reflexivity].
Qed.

Lemma empty_time_axis_run_witness :
  let r := main sample_os example_parse_area timeless_open_dataset
             example_num2date unknown_level_args empty_world in
  fst r = Completed /\ exit_code (fst r) = 0 /\
  snd r = {| fs := {[ ["outdir"] := Dir ]}; trace := [EvMkdir "outdir"] |} /\
  [EvMkdir "outdir"]
  = trace empty_world
    ++ (if path_exists sample_os (fs empty_world) (outdir unknown_level_args)
        then [] else [EvMkdir (outdir unknown_level_args)]).
Proof.
  apply (empty_time_axis_run sample_os example_parse_area
           timeless_open_dataset example_num2date unknown_level_args
           empty_world
           {| fs := {[ ["outdir"] := Dir ]}; trace := [EvMkdir "outdir"] |}
           example_box timeless_dataset); try reflexivity.
  right. split; [reflexivity|].
  exists {[ ["outdir"] := Dir ]}. split; reflexivity.
Defined.

Lemma reaches_observe {FS A : Type} (os : OS FS) (args : Namespace)
    (observe : FS -> A) (s s' : FS) :
  (forall s1 s2, mkdir os (outdir args) s1 = Ok s2 ->
                 observe s2 = observe s1) ->
  (forall m timestr s1 s2,
     savefig os m (outdir args +:+ "/" +:+ timestr +:+ "-"
                   +:+ fmt_d (level args) +:+ ".png") (dpi args) s1 = Ok s2 ->
     observe s2 = observe s1) ->
  reaches os args s s' -> observe s' = observe s.
Proof.
  intros Hmk Hsave Hreach.
  induction Hreach as [s|s s' s'' H _ IH|m timestr s s' s'' H _ IH];
    [reflexivity| |].
  - rewrite IH. now apply Hmk.
  - rewrite IH. now apply (Hsave m timestr).
Qed.

(** X11.  What a run does to the file system, however it ends: it calls
    [os.mkdir] on the output path and saves images under names
    [{outdir}/...-{level}.png], and nothing else.  So whatever can be
    observed of the file system and is changed by neither of these calls is
    after the run what it was before. *)
Theorem run_frame {FS : Type} (os : OS FS)
    (parse_area : string -> result bounds)
    (open_dataset : string -> result Dataset)
    (num2date : Z -> string -> string -> datetime)
    (args : Namespace) (w : world FS) :
  reaches os args (fs w)
    (fs (snd (main os parse_area open_dataset num2date args w))) /\
  forall (A : Type) (observe : FS -> A),
    (forall s1 s2, mkdir os (outdir args) s1 = Ok s2 ->
                   observe s2 = observe s1) ->
    (forall m timestr s1 s2,
       savefig os m (outdir args +:+ "/" +:+ timestr +:+ "-"
                     +:+ fmt_d (level args) +:+ ".png") (dpi args) s1
       = Ok s2 ->
       observe s2 = observe s1) ->
    observe (fs (snd (main os parse_area open_dataset num2date args w)))
    = observe (fs w).
Proof.
  assert (Hreach : reaches os args (fs w)
            (fs (snd (main os parse_area open_dataset num2date args w)))).
  { unfold main.
    destruct (parse_area (area args)) as [box|e]; [|constructor].
    destruct (open_dataset (datafile args)) as [d|e]; [|constructor].
    destruct (listlevels args).
    - simpl. rewrite (proj1 (print_levels_spec _ _)). constructor.
    - destruct (path_exists os (fs w) (outdir args)); simpl.
      + destruct (path_isdir os (fs w) (outdir args)); simpl; [|constructor].
        apply timestep_loop_reaches.
      + destruct (mkdir os (outdir args) (fs w)) as [fs'|e] eqn:Hmk;
          [|constructor].
        eapply reaches_mkdir; [exact Hmk|].
        apply (timestep_loop_reaches os num2date args box _ _ _ _ _
                 {| fs := fs'; trace := _ |}). }
  split; [exact Hreach|].
  intros A observe Hmk Hsave.
  exact (reaches_observe os args observe _ _ Hmk Hsave Hreach).
Qed.

(** In the sample system, a file beside the output directory is after the
    run what it was before. *)
Lemma run_frame_witness :
  fs (snd (main sample_os example_parse_area example_open_dataset
             example_num2date example_args world_with_file))
    !! ["notes.txt"]
  = fs world_with_file !! ["notes.txt"].
Proof.
  apply (proj2 (run_frame sample_os example_parse_area example_open_dataset
                  example_num2date example_args world_with_file)
           (option node) (fun s => s !! ["notes.txt"])).
  - intros s1 s2. simpl. unfold sample_mkdir.
    repeat case_match; try discriminate.
    intros [= <-]. now apply lookup_insert_ne.
  - intros m timestr s1 s2. simpl. unfold sample_savefig.
    repeat case_match; try discriminate;
      intros [= <-]; apply lookup_insert_ne; intros Hk;
      vm_compute in Hk; discriminate Hk.
Defined.

(** ** Image names *)


Example digits_examples :
  four_digits 2014 = "2014" /\ two_digits 2 = "02" /\ two_digits 9 = "09" /\
  two_digits 31 = "31".
Proof. repeat split. Qed.

(** X13.  For a date with a year of four digits the text of [strftime]
    is the four digits of the year, a dash, the two digits of the month, a
    dash and the two digits of the day, in this order: ten characters. *)
Theorem date_text_shape (d : datetime) :
  1000 <= year d <= 9999 -> 1 <= month d <= 12 -> 1 <= day d <= 31 ->
  strftime_Ymd d
  = String (digit (year d / 1000))
      (String (digit (year d / 100 mod 10))
         (String (digit (year d / 10 mod 10))
            (String (digit (year d mod 10))
               ("-" +:+
                String (digit (month d / 10))
                  (String (digit (month d mod 10))
                     ("-" +:+
                      String (digit (day d / 10))
                        (String (digit (day d mod 10)) ""))))))) /\
  String.length (strftime_Ymd d) = 10%nat.
Proof.
  intros Hy Hm Hd. rewrite (strftime_Ymd_digits d Hy Hm Hd).
  split; reflexivity.
Qed.

Lemma date_text_shape_witness :
  strftime_Ymd {| year := 2014; month := 2; day := 9 |} = "2014-02-09" /\
  String.length (strftime_Ymd {| year := 2014; month := 2; day := 9 |})
  = 10%nat.
Proof.
  apply (date_text_shape {| year := 2014; month := 2; day := 9 |});
    simpl; lia.
Defined.

(** A year below 1000 is not padded. *)
Example strftime_year_999 :
  strftime_Ymd {| year := 999; month := 1; day := 2 |} = "999-01-02".
Proof. reflexivity. Qed.
